(** * hr_resume_converter_groq: the reply parser and the resume template

    A shallow embedding of [src/hr_resume_converter_groq.py].

    Python [str] values are sequences of Unicode code points; they are
    modelled as lists of code points ([N]).  White space is Python's
    [str.isspace] on one code point; [str.lower] and [str.upper] take
    CPython's fast path on ASCII-only strings and the Unicode tables
    otherwise.  Those tables belong to the interpreter, not to this
    repository, and enter as Section variables. *)

From Stdlib Require Import String Ascii NArith Bool List Lia.
Import ListNotations.

Local Open Scope N_scope.

(** ** Text *)

Definition char := N.
Definition str := list char.

(** An ASCII literal as a [str]. *)
Definition u (s : string) : str := map N_of_ascii (list_ascii_of_string s).

Definition NL : char := 10.
Definition COLON : char := 58.

Fixpoint str_eqb (a b : str) : bool :=
  match a, b with
  | [], [] => true
  | x :: a', y :: b' => (x =? y) && str_eqb a' b'
  | _, _ => false
  end.

(** [bool(s)] for a string: non-empty. *)
Definition truthy (s : str) : bool :=
  match s with [] => false | _ :: _ => true end.

(** [str.isspace] on one code point (CPython's [_PyUnicode_IsWhitespace]). *)
Definition isspace (c : char) : bool :=
  ((0x09 <=? c) && (c <=? 0x0D)) || ((0x1C <=? c) && (c <=? 0x20))
  || (c =? 0x85) || (c =? 0xA0) || (c =? 0x1680)
  || ((0x2000 <=? c) && (c <=? 0x200A))
  || (c =? 0x2028) || (c =? 0x2029) || (c =? 0x202F) || (c =? 0x205F)
  || (c =? 0x3000).

Fixpoint lstrip (s : str) : str :=
  match s with
  | [] => []
  | c :: rest => if isspace c then lstrip rest else s
  end.

Definition rstrip (s : str) : str := rev (lstrip (rev s)).

(** [s.strip()] *)
Definition strip (s : str) : str := rstrip (lstrip s).

Definition is_ascii (s : str) : bool := forallb (fun c => c <? 128) s.

Definition ascii_lower (c : char) : char :=
  if (65 <=? c) && (c <=? 90) then c + 32 else c.

Definition ascii_upper (c : char) : char :=
  if (97 <=? c) && (c <=? 122) then c - 32 else c.

(** [p] is a prefix of [s]: [s.startswith(p)]. *)
Fixpoint startswith (p s : str) : bool :=
  match p, s with
  | [], _ => true
  | _ :: _, [] => false
  | a :: p', b :: s' => (a =? b) && startswith p' s'
  end.

(** [p in s] for strings. *)
Fixpoint contains (p s : str) : bool :=
  startswith p s ||
  match s with
  | [] => false
  | _ :: s' => contains p s'
  end.

(** [s.split(sep)] for a one-character separator. *)
Fixpoint split (sep : char) (s : str) : list str :=
  match s with
  | [] => [[]]
  | c :: rest =>
      if c =? sep then [] :: split sep rest
      else match split sep rest with
           | h :: t => (c :: h) :: t
           | [] => [[c]]
           end
  end.

(** [s.split(sep, 1)]: at most one cut, at the first separator. *)
Fixpoint split1 (sep : char) (s : str) : list str :=
  match s with
  | [] => [[]]
  | c :: rest =>
      if c =? sep then [[]; rest]
      else match split1 sep rest with
           | h :: t => (c :: h) :: t
           | [] => [[c]]
           end
  end.

(** [sep.join(parts)] *)
Fixpoint join (sep : str) (parts : list str) : str :=
  match parts with
  | [] => []
  | [p] => p
  | p :: rest => p ++ sep ++ join sep rest
  end.

(** [s.replace(old, new)] for a non-empty [old]: occurrences are replaced
    left to right without overlap; [skip] counts the characters of the
    occurrence being replaced that are still to be passed over. *)
Fixpoint replace_from (old new : str) (skip : nat) (s : str) : str :=
  match s with
  | [] => []
  | c :: rest =>
      match skip with
      | S k => replace_from old new k rest
      | O =>
          if startswith old s
          then new ++ replace_from old new (Nat.pred (List.length old)) rest
          else c :: replace_from old new 0 rest
      end
  end.

Definition replace (old new s : str) : str := replace_from old new 0 s.

(** ** Exceptions *)

Inductive exn := IndexError | KeyError | ExternalError.

Inductive result (A : Type) :=
| Ok (a : A)
| Raise (e : exn).
Arguments Ok {A} a.
Arguments Raise {A} e.

Definition bind {A B} (r : result A) (k : A -> result B) : result B :=
  match r with
  | Ok a => k a
  | Raise e => Raise e
  end.

Notation "x <- r ;; k" := (bind r (fun x => k))
  (at level 61, r at next level, right associativity).

(** [xs[i]] *)
Definition index {A} (xs : list A) (i : nat) : result A :=
  match nth_error xs i with
  | Some x => Ok x
  | None => Raise IndexError
  end.

(** A [for] loop whose body may raise. *)
Fixpoint for_each {S A} (body : S -> A -> result S) (xs : list A) (s : S)
  : result S :=
  match xs with
  | [] => Ok s
  | x :: rest => s' <- body s x ;; for_each body rest s'
  end.

(** ** Dictionaries

    A Python [dict] keeps its keys in insertion order and [create_resume]
    iterates over [data.items()], so a dictionary is an association list:
    assignment to a present key keeps its position, a new key goes to the
    end. *)

Definition dict := list (str * str).

Definition keys (d : dict) : list str := map fst d.

Fixpoint dict_get (k : str) (d : dict) : result str :=
  match d with
  | [] => Raise KeyError
  | (k', v) :: rest => if str_eqb k k' then Ok v else dict_get k rest
  end.

Fixpoint dict_set (k v : str) (d : dict) : dict :=
  match d with
  | [] => [(k, v)]
  | (k', v') :: rest =>
      if str_eqb k k' then (k', v) :: rest else (k', v') :: dict_set k v rest
  end.

(** The field names. *)
Definition Full_Name : str := u "Full Name".
Definition Professional_Title : str := u "Professional Title".
Definition Email : str := u "Email".
Definition Phone : str := u "Phone".
Definition Location : str := u "Location".
Definition Profile_Summary : str := u "Profile Summary".
Definition Professional_Experience : str := u "Professional Experience".
Definition Project_Experience : str := u "Project Experience".
Definition Technical_Skills : str := u "Technical Skills".
Definition Soft_Skills : str := u "Soft Skills".

Definition IDENTITY_FIELDS : list str :=
  [Full_Name; Professional_Title; Email; Phone; Location].

Definition SECTION_FIELDS : list str :=
  [Profile_Summary; Professional_Experience; Project_Experience;
   Technical_Skills; Soft_Skills].

Definition FIELD_NAMES : list str := IDENTITY_FIELDS ++ SECTION_FIELDS.

(** The dictionary literal at the head of [parse_ai_response]. *)
Definition empty_record : dict := map (fun k => (k, [])) FIELD_NAMES.

(** A stand-in for the Unicode case tables on text that is pure ASCII:
    [lower] and [upper] never consult the tables on such text. *)
Definition ascii_only (s : str) : str := s.

(** The [re] module never equates a non-ASCII subject character with a
    pattern character under these tables. *)
Definition ascii_only_ieq (p c : char) : bool := false.

(** Membership in a list of literals. *)
Ltac in_list := vm_compute; repeat first [left; reflexivity | right].

Section Python.

Set Default Proof Using "Type".

(** [str.lower] and [str.upper] on strings that are not pure ASCII, and the
    case-insensitive comparison of the [re] module between a pattern
    character and a non-ASCII subject character. *)
Variable unicode_lower : str -> str.
Variable unicode_upper : str -> str.
Variable unicode_ieq : char -> char -> bool.

Definition lower (s : str) : str :=
  if is_ascii s then map ascii_lower s else unicode_lower s.

Definition upper (s : str) : str :=
  if is_ascii s then map ascii_upper s else unicode_upper s.

(** ** parse_ai_response *)

Definition parser_state := (dict * option str)%type.

(** [data[k] = line.split(":", 1)[1].strip()] *)
Definition set_identity (k line : str) (data : dict) : result dict :=
  v <- index (split1 COLON line) 1 ;;
  Ok (dict_set k (strip v) data).

(** The body of the loop over the lines; [continue] is an early [Ok]. *)
Definition parse_line (st : parser_state) (raw : str) : result parser_state :=
  let '(data, current_key) := st in
  let line := strip raw in
  if negb (truthy line) then Ok st else
  let lower_line := lower line in
  if contains (u "full name:") lower_line then
    d <- set_identity Full_Name line data ;; Ok (d, current_key)
  else if contains (u "professional title:") lower_line then
    d <- set_identity Professional_Title line data ;; Ok (d, current_key)
  else if contains (u "email:") lower_line then
    d <- set_identity Email line data ;; Ok (d, current_key)
  else if contains (u "phone:") lower_line then
    d <- set_identity Phone line data ;; Ok (d, current_key)
  else if contains (u "location:") lower_line then
    d <- set_identity Location line data ;; Ok (d, current_key)
  else if contains (u "profile summary:") lower_line then
    Ok (data, Some Profile_Summary)
  else if contains (u "professional experience:") lower_line then
    Ok (data, Some Professional_Experience)
  else if contains (u "project experience:") lower_line then
    Ok (data, Some Project_Experience)
  else if contains (u "technical skills:") lower_line then
    Ok (data, Some Technical_Skills)
  else if contains (u "soft skills:") lower_line then
    Ok (data, Some Soft_Skills)
  else
    match current_key with
    | Some k =>
        old <- dict_get k data ;;
        Ok (dict_set k (old ++ line ++ [NL]) data, current_key)
    | None => Ok st
    end.

Definition strip_values (d : dict) : dict :=
  map (fun kv => (fst kv, strip (snd kv))) d.

Definition parse_ai_response (text : str) : result dict :=
  st <- for_each parse_line (split NL text) (empty_record, None) ;;
  Ok (strip_values (fst st)).

(** ** Effects

    Calls to the outside (the console, the COM runtime, the converter, the
    file system) are recorded in a trace, oldest first. *)

Definition document_path := str.

Inductive event :=
| Printed (label : str) (e : exn)
| CoInitialized
| Converted (src dst : document_path)
| CoUninitialized
| Saved (path : document_path).

Definition io (A : Type) := list event -> result A * list event.

Definition ret {A} (a : A) : io A := fun t => (Ok a, t).

Definition io_bind {A B} (c : io A) (k : A -> io B) : io B :=
  fun t =>
    match c t with
    | (Ok a, t') => k a t'
    | (Raise e, t') => (Raise e, t')
    end.

Notation "x <~ c ;; k" := (io_bind c (fun x => k))
  (at level 61, c at next level, right associativity).

(** An outside call: it is recorded, then returns or raises. *)
Definition call {A} (ev : event) (outcome : result A) : io A :=
  fun t => (outcome, t ++ [ev]).

Definition lift {A} (r : result A) : io A := fun t => (r, t).

(** [print(f"<label>: {e}")] *)
Definition print (label : str) (e : exn) : io unit :=
  call (Printed label e) (Ok tt).

(** [try: body except Exception as e: handler e] *)
Definition try_except {A} (body : io A) (handler : exn -> io A) : io A :=
  fun t =>
    match body t with
    | (Ok a, t') => (Ok a, t')
    | (Raise e, t') => handler e t'
    end.

(** [try: body finally: final]; the value of [body] is kept unless
    [final] raises. *)
Definition try_finally {A} (body : io A) (final : io unit) : io A :=
  fun t =>
    match body t with
    | (r, t') =>
        match final t' with
        | (Ok _, t'') => (r, t'')
        | (Raise e, t'') => (Raise e, t'')
        end
    end.

(** ** safe_convert_to_pdf *)

(** The COM runtime and docx2pdf: what [pythoncom.CoInitialize()] and
    [convert(src, dst)] do when called. *)
Record converter := {
  CoInitialize : result unit;
  convert : document_path -> document_path -> result unit
}.

Variable office : converter.

Definition safe_convert_to_pdf (docx_path pdf_path : document_path)
  : io document_path :=
  try_finally
    (try_except
       (_ <~ call CoInitialized (CoInitialize office) ;;
        _ <~ call (Converted docx_path pdf_path)
               (convert office docx_path pdf_path) ;;
        ret pdf_path)
       (fun e => _ <~ print (u "PDF Error") e ;; ret docx_path))
    (call CoUninitialized (Ok tt)).

(** ** extract_text *)

(** What the readers find at a path: pdfplumber yields pages whose
    [extract_text()] returns a string or [None], or raises; python-docx
    yields the paragraph texts.  Opening may raise in both. *)
Inductive page :=
| PageText (t : option str)
| PageRaises.

Inductive pdf_file :=
| PdfOpenRaises
| PdfPages (pages : list page).

Inductive docx_file :=
| DocumentRaises
| DocumentParagraphs (paragraphs : list str).

Variable pdfplumber_open : document_path -> pdf_file.
Variable Document : document_path -> docx_file.

Definition endswith (p s : str) : bool := startswith (rev p) (rev s).

(** [x or str()] for [x] a string or [None]. *)
Definition or_empty (x : option str) : str :=
  match x with
  | Some s => if truthy s then s else []
  | None => []
  end.

(** The loop over [pdf.pages]: the local [text] when the loop is left, and
    whether it was left by an exception. *)
Fixpoint read_pages (pages : list page) (text : str) : str * result unit :=
  match pages with
  | [] => (text, Ok tt)
  | PageText t :: rest => read_pages rest (text ++ (or_empty t ++ [NL]))
  | PageRaises :: _ => (text, Raise ExternalError)
  end.

(** The body of the [try], started with the local [text]. *)
Definition read_file (path : document_path) (text : str) : str * result unit :=
  if endswith (u ".pdf") (lower path) then
    match pdfplumber_open path with
    | PdfOpenRaises => (text, Raise ExternalError)
    | PdfPages pages => read_pages pages text
    end
  else
    match Document path with
    | DocumentRaises => (text, Raise ExternalError)
    | DocumentParagraphs ps => (join [NL] ps, Ok tt)
    end.

Definition extract_text (path : document_path) : io str :=
  let '(text, outcome) := read_file path [] in
  _ <~ match outcome with
       | Ok _ => ret tt
       | Raise e => print (u "Extraction Error") e
       end ;;
  ret (strip text).

(** ** create_resume *)

Inductive alignment := CENTER | LEFT.
Inductive style := Normal | List_Bullet.

(** A paragraph with the formatting of its single run. *)
Record paragraph := {
  text : str;
  picture : option str;
  size : option N;
  bold : bool;
  color : option (N * N * N);
  align : option alignment;
  pstyle : style
}.

Definition plain (t : str) : paragraph :=
  {| text := t; picture := None; size := None; bold := false;
     color := None; align := None; pstyle := Normal |}.

(** [os.path.exists] on [static/krify_logo.<ext>]. *)
Variable logo_exists : str -> bool.

Definition BRAND : N * N * N := (0, 55, 101).

Definition logo_paragraph : paragraph :=
  match find logo_exists [u "png"; u "jpg"; u "jpeg"; u "bmp"] with
  | Some ext =>
      {| text := []; picture := Some (u "krify_logo." ++ ext); size := None;
         bold := false; color := None; align := Some CENTER;
         pstyle := Normal |}
  | None =>
      {| text := u "KRIFY"; picture := None; size := Some 20; bold := true;
         color := Some BRAND; align := Some CENTER; pstyle := Normal |}
  end.

(** Case-insensitive comparison of [re.I] between a pattern character and a
    subject character. *)
Definition re_ieq (p c : char) : bool :=
  if c <? 128 then ascii_lower p =? ascii_lower c else unicode_ieq p c.

(** Matches a literal at the head of [s] under [re.I]; the rest of [s]. *)
Fixpoint match_literal (pat s : str) : option str :=
  match pat, s with
  | [], _ => Some s
  | _ :: _, [] => None
  | p :: pat', c :: s' => if re_ieq p c then match_literal pat' s' else None
  end.

(** An alternation [(a|b|c)]: the first branch that matches wins. *)
Fixpoint match_alternatives (alts : list str) (s : str) : option str :=
  match alts with
  | [] => None
  | a :: rest =>
      match match_literal a s with
      | Some r => Some r
      | None => match_alternatives rest s
      end
  end.

Definition TITLE_LABELS : list str :=
  [u "PROFESSIONAL TITLE/DESIGNATION:"; u "TITLE:"; u "DESIGNATION:"].

(** [re.sub(r'^(PROFESSIONAL TITLE/DESIGNATION:|TITLE:|DESIGNATION:)\s*', '',
    s, flags=re.I)]: the pattern is anchored, so at most the head of [s] is
    removed; the greedy [\s*] takes all the white space that follows. *)
Definition sub_title_label (s : str) : str :=
  match match_alternatives TITLE_LABELS s with
  | Some rest => lstrip rest
  | None => s
  end.

Definition EN_DASH : char := 0x2013.
Definition BULLET : char := 0x2022.

(** The text of the name and title line. *)
Definition display_line (data : dict) : result str :=
  full_name <- dict_get Full_Name data ;;
  professional_title <- dict_get Professional_Title data ;;
  let name := upper full_name in
  let title := upper (strip (sub_title_label professional_title)) in
  Ok (if truthy title then name ++ [32; EN_DASH; 32] ++ title else name).

(** [[v for k, v in data.items() if k in ["Email", "Phone", "Location"]
    and v]] *)
Definition contact_parts (data : dict) : list str :=
  map snd
    (filter (fun kv =>
               existsb (str_eqb (fst kv)) [Email; Phone; Location]
               && truthy (snd kv))
            data).

Definition contact_paragraphs (data : dict) : list paragraph :=
  let parts := contact_parts data in
  match parts with
  | [] => []
  | _ :: _ =>
      [{| text := join (u " | ") parts; picture := None; size := None;
          bold := false; color := Some (127, 140, 141); align := Some CENTER;
          pstyle := Normal |}]
  end.

Definition SECTIONS : list (str * str) :=
  [(u "PROFILE SUMMARY", Profile_Summary);
   (u "PROFESSIONAL EXPERIENCE", Professional_Experience);
   (u "PROJECT EXPERIENCE", Project_Experience);
   (u "TECHNICAL SKILLS", Technical_Skills);
   (u "SOFT SKILLS", Soft_Skills)].

Definition content_paragraph (line : str) : list paragraph :=
  let t := strip line in
  if negb (truthy t) then [] else
    [{| text := t; picture := None; size := None; bold := false;
        color := Some (52, 73, 94); align := None;
        pstyle := if startswith (u "-") t || startswith [BULLET] t
                  then List_Bullet else Normal |}].

Definition section_paragraphs (data : dict) (s : str * str)
  : result (list paragraph) :=
  body <- dict_get (snd s) data ;;
  if truthy body then
    Ok ({| text := fst s; picture := None; size := Some 13; bold := true;
           color := Some BRAND; align := None; pstyle := Normal |}
        :: flat_map content_paragraph (split NL body))
  else Ok [].

Fixpoint sections_paragraphs (data : dict) (ss : list (str * str))
  : result (list paragraph) :=
  match ss with
  | [] => Ok []
  | s :: rest =>
      ps <- section_paragraphs data s ;;
      qs <- sections_paragraphs data rest ;;
      Ok (ps ++ qs)
  end.

Definition footer : list paragraph :=
  [plain []; plain [];
   {| text := u "Private and Confidential Document " ++ [EN_DASH]
              ++ u " Intended for authorized organizations only.";
      picture := None; size := Some 9; bold := true; color := None;
      align := Some LEFT; pstyle := Normal |};
   {| text := u "info@krify.com"; picture := None; size := Some 9;
      bold := false; color := None; align := Some LEFT; pstyle := Normal |}].

(** The paragraphs of the document, in order. *)
Definition resume_paragraphs (data : dict) : result (list paragraph) :=
  display <- display_line data ;;
  body <- sections_paragraphs data SECTIONS ;;
  Ok (logo_paragraph
      :: {| text := display; picture := None; size := Some 16; bold := true;
            color := Some BRAND; align := Some CENTER; pstyle := Normal |}
      :: contact_paragraphs data ++ body ++ footer).

Definition create_resume (data : dict) (path : document_path)
  : io (list paragraph * document_path) :=
  doc <~ lift (resume_paragraphs data) ;;
  _ <~ call (Saved path) (Ok tt) ;;
  final <~ safe_convert_to_pdf path (replace (u ".docx") (u ".pdf") path) ;;
  ret (doc, final).

(** ** convert_route: the name of the artifact *)

Definition is_alnum (c : char) : bool :=
  ((48 <=? c) && (c <=? 57)) || ((65 <=? c) && (c <=? 90))
  || ((97 <=? c) && (c <=? 122)).

(** [re.sub(r'[^a-zA-Z0-9]', '_', s)] *)
Definition sub_non_alnum (s : str) : str :=
  map (fun c => if is_alnum c then c else 95) s.

(** [re.sub(...)[:30] or "Candidate"] on [data["Full Name"]] *)
Definition safe_name (data : dict) : result str :=
  full_name <- dict_get Full_Name data ;;
  let s := firstn 30 (sub_non_alnum full_name) in
  Ok (if truthy s then s else u "Candidate").

(** ** The vocabulary of the parser

    The vocabulary of the parser as two tables, in the order in which
    [parse_line] tries the patterns, and the class of a line: the first
    pattern of the table that the lowered line contains. *)

Definition IDENTITY_PATTERNS : list (str * str) :=
  [(u "full name:", Full_Name);
   (u "professional title:", Professional_Title);
   (u "email:", Email);
   (u "phone:", Phone);
   (u "location:", Location)].

Definition HEADING_PATTERNS : list (str * str) :=
  [(u "profile summary:", Profile_Summary);
   (u "professional experience:", Professional_Experience);
   (u "project experience:", Project_Experience);
   (u "technical skills:", Technical_Skills);
   (u "soft skills:", Soft_Skills)].

Definition first_match (table : list (str * str)) (lower_line : str)
  : option str :=
  option_map snd (find (fun pf => contains (fst pf) lower_line) table).

(** The identity field whose pattern a trimmed line matches, if any. *)
Definition identity_field (line : str) : option str :=
  first_match IDENTITY_PATTERNS (lower line).

(** The section whose heading pattern a trimmed line matches, if any. *)
Definition heading_field (line : str) : option str :=
  first_match HEADING_PATTERNS (lower line).

Inductive line_class :=
| Blank
| IdentityLine (field : str)
| HeadingLine (section : str)
| ContentLine.

Definition classify (raw : str) : line_class :=
  let line := strip raw in
  if negb (truthy line) then Blank else
    match identity_field line with
    | Some f => IdentityLine f
    | None =>
        match heading_field line with
        | Some s => HeadingLine s
        | None => ContentLine
        end
    end.

(** The text after the first occurrence of [sep]. *)
Fixpoint after_first (sep : char) (s : str) : str :=
  match s with
  | [] => []
  | c :: rest => if c =? sep then rest else after_first sep rest
  end.

(** The value an identity line carries. *)
Definition identity_value (raw : str) : str :=
  strip (after_first COLON (strip raw)).

Definition option_str_eqb (a : option str) (b : str) : bool :=
  match a with
  | Some x => str_eqb x b
  | None => false
  end.

(** The trimmed content lines that fall under section [s], in source order:
    [active] is the section in force when [lines] begins. *)
Fixpoint section_lines (s : str) (active : option str) (lines : list str)
  : list str :=
  match lines with
  | [] => []
  | raw :: rest =>
      match classify raw with
      | HeadingLine h => section_lines s (Some h) rest
      | ContentLine =>
          if option_str_eqb active s
          then strip raw :: section_lines s active rest
          else section_lines s active rest
      | _ => section_lines s active rest
      end
  end.

(** [raw] is an identity line for field [f]. *)
Definition is_identity_line (f raw : str) : bool :=
  match classify raw with
  | IdentityLine g => str_eqb g f
  | _ => false
  end.

(** The specification's wording of a section value, kept apart from
    [section_lines]: every non-blank line met while section [s] is the
    active one (a heading line switches the active section and belongs to
    none), trimmed and joined, the trailing white space removed. *)
Fixpoint lines_while_active (s : str) (active : option str)
  (lines : list str) : list str :=
  match lines with
  | [] => []
  | raw :: rest =>
      match classify raw with
      | Blank => lines_while_active s active rest
      | HeadingLine h => lines_while_active s (Some h) rest
      | _ =>
          if option_str_eqb active s
          then strip raw :: lines_while_active s active rest
          else lines_while_active s active rest
      end
  end.

Definition section_value_as_stated (s text : str) : str :=
  rstrip (join [NL] (lines_while_active s None (split NL text))).

(** [dict_get] with the empty string for a missing key. *)
Definition lookup (k : str) (d : dict) : str :=
  match dict_get k d with
  | Ok v => v
  | Raise _ => []
  end.

(** One turn of the loop as a total function. *)
Definition step (st : parser_state) (raw : str) : parser_state :=
  match classify raw with
  | Blank => st
  | IdentityLine f => (dict_set f (identity_value raw) (fst st), snd st)
  | HeadingLine s => (fst st, Some s)
  | ContentLine =>
      match snd st with
      | Some k =>
          (dict_set k (lookup k (fst st) ++ strip raw ++ [NL]) (fst st),
           snd st)
      | None => st
      end
  end.

(** The states the loop can be in. *)
Definition well_formed (st : parser_state) : Prop :=
  keys (fst st) = FIELD_NAMES /\
  match snd st with
  | Some k => In k SECTION_FIELDS
  | None => True
  end.

(** Neither leading nor trailing white space. *)
Definition trimmed (s : str) : Prop := lstrip s = s /\ rstrip s = s.

(** The specification's wording of the name and title line, kept apart
    from [display_line]: the dash and the title appear whenever the stored
    title is non-empty, the title being what remains after the label. *)
Definition remove_label (t : str) : str :=
  match match_alternatives TITLE_LABELS t with
  | Some rest => rest
  | None => t
  end.

Definition display_as_stated (data : dict) : result str :=
  full_name <- dict_get Full_Name data ;;
  professional_title <- dict_get Professional_Title data ;;
  Ok (if truthy professional_title
      then upper full_name ++ [32; EN_DASH; 32]
           ++ upper (remove_label professional_title)
      else upper full_name).

(** The text gathered from the pages that precede the first page whose
    extraction raises. *)
Fixpoint text_before_failure (pages : list page) : str :=
  match pages with
  | PageText t :: rest => or_empty t ++ [NL] ++ text_before_failure rest
  | _ => []
  end.

(** What [extract_text] holds in its local [text] when reading [path] is cut
    short: the pages read so far for a PDF that opened, nothing otherwise. *)
Definition pages_read (path : document_path) : str :=
  if endswith (u ".pdf") (lower path) then
    match pdfplumber_open path with
    | PdfPages pages => text_before_failure pages
    | PdfOpenRaises => []
    end
  else [].

(** Sample collaborators and records. *)

Definition damaged_pdf (path : document_path) : pdf_file :=
  PdfPages [PageText (Some (u "Hello")); PageRaises].

Definition unreadable_document (path : document_path) : docx_file :=
  DocumentRaises.

Definition failing_office : converter :=
  {| CoInitialize := Ok tt; convert := fun _ _ => Raise ExternalError |}.

Definition working_office : converter :=
  {| CoInitialize := Ok tt; convert := fun _ _ => Ok tt |}.

Definition record_of (name title email phone location : str) : dict :=
  [(Full_Name, name); (Professional_Title, title); (Email, email);
   (Phone, phone); (Location, location); (Profile_Summary, []);
   (Professional_Experience, []); (Project_Experience, []);
   (Technical_Skills, []); (Soft_Skills, [])].

Definition sample_reply : str :=
  join [NL] [u "Full Name: John Smith"; u "Profile Summary:";
             u "  Seasoned engineer."; u "Ships on time.  ";
             u "Technical Skills:"; u "Python, Rocq"].

(** A reply whose Profile Summary holds a line that reads as an identity
    line. *)
Definition interrupted_reply : str :=
  join [NL] [u "Profile Summary:"; u "Location: Hyderabad";
             u "Builds compilers"].

Definition repeated_reply : str :=
  join [NL] [u "Email: old@example.com"; u "Email: new@example.com";
             u "Phone: 555-0100"].

(** A record whose Professional Title is a label and nothing else. *)
Definition label_only_record : dict :=
  record_of (u "John Smith") (u "Title:") [] [] [].

Definition labelled_record : dict :=
  record_of (u "John Smith") (u "Title: Java Developer") [] [] [].

Definition phone_only_record : dict :=
  record_of (u "John Smith") [] [] (u "555-0100") [].

(** ** get_ai_data *)

(** The Groq client: what [Groq(...)], [client.chat.completions.create(...)]
    and [resp.choices[0].message.content] deliver for a prompt, a reply
    text or an exception. *)
Variable groq_complete : str -> result str.

Definition QUOTE : char := 34.

(** The lines of the prompt that precede the resume text. *)
Definition PROMPT_LINES : list str :=
  [u "Extract professional details from this resume.";
   u "STRICT RULES:";
   u "1. ONLY use details from the text.";
   u "2. If missing, leave empty.";
   u "3. Separate Technical and Soft skills.";
   u "4. Professional Title should be JUST the job title (e.g. "
     ++ [QUOTE] ++ u "Java Developer" ++ [QUOTE] ++ u ").";
   [];
   u "FORMAT:";
   u "CANDIDATE INFORMATION:";
   u "- Full Name:";
   u "- Professional Title:";
   u "- Email:";
   u "- Phone:";
   u "- Location:";
   [];
   u "PROFILE SUMMARY:";
   u "(Short summary)";
   [];
   u "PROFESSIONAL EXPERIENCE:";
   u "(Format: Company | Role | Duration | Responsibilities)";
   [];
   u "PROJECT EXPERIENCE:";
   u "(Projects and tech used)";
   [];
   u "TECHNICAL SKILLS:";
   u "(Tools, languages, etc.)";
   [];
   u "SOFT SKILLS:";
   u "(Communication, etc.)";
   [];
   u "TEXT:"].

(** The f-string: the fixed lines, [resume_text[:4000]], a newline. *)
Definition build_prompt (resume_text : str) : str :=
  join [NL] PROMPT_LINES ++ [NL] ++ firstn 4000 resume_text ++ [NL].

Definition get_ai_data (resume_text : str) : io (option dict) :=
  let prompt := build_prompt resume_text in
  try_except
    (content <~ lift (groq_complete prompt) ;;
     data <~ lift (parse_ai_response content) ;;
     ret (Some data))
    (fun e => _ <~ print (u "AI Error") e ;; ret None).

(** ** convert_route *)

(** The effects of a request: those of the functions above, the
    registration of the clean-up for after the request, and the file handed
    to [send_file]. *)
Inductive route_event :=
| Effect (e : event)
| CleanupRegistered (files : list document_path)
| FileSent (path : document_path) (download_name : str).

Definition route (A : Type) :=
  list route_event -> result A * list route_event.

Definition route_ret {A} (a : A) : route A := fun t => (Ok a, t).

Definition route_bind {A B} (c : route A) (k : A -> route B) : route B :=
  fun t =>
    match c t with
    | (Ok a, t') => k a t'
    | (Raise e, t') => (Raise e, t')
    end.

Notation "x <~~ c ;; k" := (route_bind c (fun x => k))
  (at level 61, c at next level, right associativity).

(** A function of the module run inside a request. *)
Definition run {A} (c : io A) : route A :=
  fun t => let '(r, t') := c [] in (r, t ++ map Effect t').

Definition route_call {A} (ev : route_event) (outcome : result A) : route A :=
  fun t => (outcome, t ++ [ev]).

Definition route_try_except {A} (body : route A) (handler : exn -> route A)
  : route A :=
  fun t =>
    match body t with
    | (Ok a, t') => (Ok a, t')
    | (Raise e, t') => handler e t'
    end.

Inductive response :=
| Redirect (location : str)
| SendFile (path : document_path) (download_name : str).

(** [os.path.join] and [os.path.basename], the temporary directory, what
    [file.save] and [send_file] do when called. *)
Variable path_join : str -> str -> str.
Variable basename : str -> str.
Variable TEMP_DIR : str.
Variable save_upload : document_path -> result unit.
Variable send_file : document_path -> str -> result unit.

(** [bool(data)] for [data] a dictionary or [None]. *)
Definition truthy_data (data : option dict) : bool :=
  match data with
  | Some (_ :: _) => true
  | _ => false
  end.

(** [upload] is the file name of [request.files.get("candidate_resume")],
    [None] when the field is absent (a file object without a name is
    falsy); [ts] is the formatted time of the request. *)
Definition convert_route (upload : option str) (ts : str) : route response :=
  match upload with
  | None => route_ret (Redirect (u "/"))
  | Some filename =>
      if negb (truthy filename) then route_ret (Redirect (u "/")) else
      let in_path := path_join TEMP_DIR (u "in_" ++ ts ++ u "_" ++ filename) in
      _ <~~ route_call (Effect (Saved in_path)) (save_upload in_path) ;;
      let cleanup_list := [in_path] in
      route_try_except
        (txt <~~ run (extract_text in_path) ;;
         data <~~ run (get_ai_data txt) ;;
         if negb (truthy_data data) then route_ret (Redirect (u "/")) else
         match data with
         | Some d =>
             safe_name <~~ run (lift (safe_name d)) ;;
             let out_path :=
               path_join TEMP_DIR
                 (u "Resume_" ++ safe_name ++ u "_" ++ ts ++ u ".docx") in
             built <~~ run (create_resume d out_path) ;;
             let final_path := snd built in
             let cleanup_list := cleanup_list ++ [out_path; final_path] in
             _ <~~ route_call (CleanupRegistered cleanup_list) (Ok tt) ;;
             _ <~~ route_call (FileSent final_path (basename final_path))
                     (send_file final_path (basename final_path)) ;;
             route_ret (SendFile final_path (basename final_path))
         | None => route_ret (Redirect (u "/"))
         end)
        (fun e =>
           _ <~~ run (print (u "Route Error") e) ;;
           route_ret (Redirect (u "/")))
  end.

(** The clean-up run after the request, over the files that exist:
    [os.remove] raises on a file that does not exist. *)
Definition filesystem := document_path -> bool.

Definition os_remove (f : document_path) (fs : filesystem)
  : result filesystem :=
  if fs f then Ok (fun g => if str_eqb g f then false else fs g)
  else Raise ExternalError.

Definition cleanup (cleanup_list : list document_path) (fs : filesystem)
  : result filesystem :=
  for_each (fun (fs : filesystem) (f : document_path) =>
              if fs f then os_remove f fs else Ok fs)
    cleanup_list fs.

(** A section heading of the document: the one paragraph kind set in 13
    points. *)
Definition is_heading (p : paragraph) : bool :=
  match size p with
  | Some n => n =? 13
  | None => false
  end.

(** More sample collaborators and inputs. *)

Definition sample_groq (prompt : str) : result str := Ok sample_reply.

Definition failing_groq (prompt : str) : result str := Raise ExternalError.

Definition sample_join (a b : str) : str := a ++ u "/" ++ b.

Definition sample_basename (p : str) : str := after_first 47 (after_first 47 p).

Definition sample_temp : str := u "tmp".

Definition accepting_save (p : document_path) : result unit := Ok tt.

Definition refusing_save (p : document_path) : result unit :=
  Raise ExternalError.

Definition accepting_send (p : document_path) (name : str) : result unit :=
  Ok tt.

Definition scanned_pdf (path : document_path) : pdf_file :=
  PdfPages [PageText None; PageText (Some (u "  ")); PageText (Some [])].

Definition record_with_summary : dict :=
  [(Full_Name, u "Ann Lee"); (Professional_Title, []); (Email, []);
   (Phone, []); (Location, []); (Profile_Summary, u "Good.");
   (Professional_Experience, []); (Project_Experience, []);
   (Technical_Skills, u "Rocq"); (Soft_Skills, [])].

(** A resume of 4000 characters followed by [tail]. *)
Definition long_resume (tail : str) : str := repeat 120 4000 ++ tail.

Definition padded_reply : str :=
  join [NL] [[]; u "   Email: a@b.com" ++ [13]; u "  "; []].

Definition prefaced_reply : str :=
  join [NL] [u "Here is the candidate:"; []; u "Email: a@b.com"].

(** The keys [create_resume] reads by name are present in [d]. *)
Definition REQUIRED_KEYS_present (d : dict) : Prop :=
  forall k, In k (Full_Name :: Professional_Title :: SECTION_FIELDS) ->
            In k (keys d).

(** The style [create_resume] gives to a content line. *)
Definition line_style (l : str) : style :=
  if startswith (u "-") l || startswith [BULLET] l then List_Bullet
  else Normal.

Definition DOCX : str := u ".docx".
Definition PDF : str := u ".pdf".

(** A page without text: [None], or a string of white space only. *)
Definition textless (p : page) : bool :=
  match p with
  | PageText t => forallb isspace (or_empty t)
  | PageRaises => false
  end.

(** A line that is not blank after trimming. *)
Definition non_blank (s : str) : bool := truthy (strip s).

(** ** Text lemmas *)

Lemma str_eqb_eq (a b : str) : str_eqb a b = true <-> a = b.
Proof.
  revert b; induction a as [|x a IH]; intros [|y b]; simpl;
    try (split; [discriminate | discriminate]);
    try (split; reflexivity).
  rewrite andb_true_iff, N.eqb_eq, IH.
  split; [intros [-> ->]; reflexivity | intros H; injection H; auto].
Qed.

Lemma str_eqb_refl (a : str) : str_eqb a a = true.
Proof. apply str_eqb_eq; reflexivity. Qed.

Lemma str_eqb_neq (a b : str) : a <> b -> str_eqb a b = false.
Proof.
  intros H; destruct (str_eqb a b) eqn:E; [|reflexivity].
  apply str_eqb_eq in E; contradiction.
Qed.

Lemma lstrip_idem (s : str) : lstrip (lstrip s) = lstrip s.
Proof.
  induction s as [|c s IH]; simpl; [reflexivity|].
  destruct (isspace c) eqn:E; [exact IH | simpl; rewrite E; reflexivity].
Qed.

Lemma lstrip_app (a b : str) :
  lstrip (a ++ b) = match lstrip a with [] => lstrip b | _ => lstrip a ++ b end.
Proof.
  induction a as [|c a IH]; simpl; [reflexivity|].
  destruct (isspace c); [exact IH | reflexivity].
Qed.

Lemma rstrip_app (a b : str) :
  rstrip (a ++ b) = match rstrip b with [] => rstrip a | _ => a ++ rstrip b end.
Proof.
  unfold rstrip; rewrite rev_app_distr, lstrip_app.
  destruct (lstrip (rev b)) as [|c r] eqn:E; simpl; [reflexivity|].
  destruct (rev r ++ [c]) eqn:E'.
  - destruct (rev r); discriminate.
  - rewrite <- E', rev_app_distr, rev_involutive; simpl.
    rewrite <- app_assoc; reflexivity.
Qed.

Lemma rstrip_idem (s : str) : rstrip (rstrip s) = rstrip s.
Proof. unfold rstrip; rewrite rev_involutive, lstrip_idem; reflexivity. Qed.

Lemma rstrip_cons (c : char) (s : str) :
  rstrip (c :: s) =
  match rstrip s with
  | [] => if isspace c then [] else [c]
  | r => c :: r
  end.
Proof.
  change (c :: s) with ([c] ++ s); rewrite rstrip_app.
  destruct (rstrip s); [|reflexivity].
  unfold rstrip; simpl; destruct (isspace c); reflexivity.
Qed.

Lemma lstrip_rstrip (s : str) : lstrip s = s -> lstrip (rstrip s) = rstrip s.
Proof.
  destruct s as [|c s]; [reflexivity|]; simpl.
  destruct (isspace c) eqn:E; intros H.
  - exfalso.
    assert (L : forall t, (List.length (lstrip t) <= List.length t)%nat).
    { induction t as [|x t IH]; simpl; [lia|].
      destruct (isspace x); simpl; lia. }
    specialize (L s); rewrite H in L; simpl in L; lia.
  - rewrite rstrip_cons; destruct (rstrip s); rewrite ?E; simpl;
      rewrite ?E; reflexivity.
Qed.

Lemma strip_trimmed (s : str) : trimmed (strip s).
Proof.
  unfold trimmed, strip; split.
  - apply lstrip_rstrip, lstrip_idem.
  - apply rstrip_idem.
Qed.

Lemma trimmed_strip (s : str) : trimmed s -> strip s = s.
Proof. intros [L R]; unfold strip; rewrite L; exact R. Qed.

Lemma strip_idem (s : str) : strip (strip s) = strip s.
Proof. apply trimmed_strip, strip_trimmed. Qed.

Lemma strip_lstrip (s : str) : strip (lstrip s) = strip s.
Proof. unfold strip; rewrite lstrip_idem; reflexivity. Qed.

Lemma trimmed_nil : trimmed [].
Proof. split; reflexivity. Qed.

Lemma trimmed_app (a m b : str) :
  trimmed a -> a <> [] -> trimmed b -> b <> [] -> trimmed (a ++ m ++ b).
Proof.
  intros [La _] Na [_ Rb] Nb; split.
  - rewrite lstrip_app, La; destruct a; [contradiction | reflexivity].
  - rewrite app_assoc, rstrip_app, Rb; destruct b; [contradiction|].
    reflexivity.
Qed.

Lemma strip_newline_end (s : str) : trimmed s -> strip (s ++ [NL]) = s.
Proof.
  intros [L R]; unfold strip; rewrite lstrip_app, L.
  destruct s as [|c s]; [reflexivity|].
  rewrite rstrip_app; exact R.
Qed.

Lemma join_trimmed (ls : list str) :
  Forall (fun l => trimmed l /\ l <> []) ls -> ls <> [] ->
  trimmed (join [NL] ls) /\ join [NL] ls <> [].
Proof.
  induction 1 as [|l ls [Tl Nl] Hls IH]; [congruence|]; intros _.
  destruct ls as [|l' ls]; [simpl; auto|].
  destruct IH as [T N]; [discriminate|].
  change (join [NL] (l :: l' :: ls))
    with (l ++ [NL] ++ join [NL] (l' :: ls)).
  split.
  - apply trimmed_app; assumption.
  - destruct l; [contradiction | discriminate].
Qed.

Lemma concat_lines_join (ls : list str) :
  ls <> [] ->
  concat (map (fun l => l ++ [NL]) ls) = join [NL] ls ++ [NL].
Proof.
  induction ls as [|l ls IH]; [congruence|]; intros _.
  destruct ls as [|l' ls].
  - simpl; rewrite app_nil_r; reflexivity.
  - change (join [NL] (l :: l' :: ls))
      with (l ++ [NL] ++ join [NL] (l' :: ls)).
    change (concat (map (fun l => l ++ [NL]) (l :: l' :: ls)))
      with ((l ++ [NL]) ++ concat (map (fun l => l ++ [NL]) (l' :: ls))).
    rewrite IH by discriminate.
    rewrite <- !app_assoc; reflexivity.
Qed.

(** The accumulator of a section, trimmed, is its lines joined. *)
Lemma strip_accumulated (ls : list str) :
  Forall (fun l => trimmed l /\ l <> []) ls ->
  strip (concat (map (fun l => l ++ [NL]) ls)) = join [NL] ls.
Proof.
  intros H; destruct ls as [|l ls]; [reflexivity|].
  rewrite concat_lines_join by discriminate.
  apply strip_newline_end, join_trimmed; [assumption | discriminate].
Qed.

Lemma startswith_incl (p s : str) :
  startswith p s = true -> forall c, In c p -> In c s.
Proof.
  revert s; induction p as [|a p IH]; intros [|b s]; simpl;
    try discriminate; try (intros _ c Hc; contradiction).
  rewrite andb_true_iff, N.eqb_eq; intros [-> H] c [<- | Hc];
    [left; reflexivity | right; exact (IH _ H _ Hc)].
Qed.

Lemma contains_incl (p s : str) :
  contains p s = true -> forall c, In c p -> In c s.
Proof.
  induction s as [|b s IH]; simpl; rewrite orb_true_iff.
  - intros [H | H] c Hc; [|discriminate].
    exact (startswith_incl _ _ H c Hc).
  - intros [H | H] c Hc; [exact (startswith_incl _ _ H c Hc)|].
    right; exact (IH H c Hc).
Qed.

Lemma split1_index (sep : char) (s : str) :
  In sep s -> index (split1 sep s) 1 = Ok (after_first sep s).
Proof.
  induction s as [|c s IH]; simpl; [intros []|].
  destruct (N.eqb_spec c sep) as [->|Hne]; [reflexivity|].
  intros [H | H]; [congruence|].
  specialize (IH H); destruct (split1 sep s) as [|h t]; exact IH.
Qed.

(** ** Dictionary lemmas *)

Lemma dict_get_set_same (k v : str) (d : dict) :
  dict_get k (dict_set k v d) = Ok v.
Proof.
  induction d as [|[k' v'] d IH]; simpl.
  - rewrite str_eqb_refl; reflexivity.
  - destruct (str_eqb k k') eqn:E; simpl; rewrite E; auto.
Qed.

Lemma dict_get_set_other (k k' v : str) (d : dict) :
  k' <> k -> dict_get k' (dict_set k v d) = dict_get k' d.
Proof.
  intros Hne; induction d as [|[k0 v0] d IH]; simpl.
  - rewrite str_eqb_neq by assumption; reflexivity.
  - destruct (str_eqb k k0) eqn:E; simpl; [|rewrite IH; reflexivity].
    apply str_eqb_eq in E; subst k0.
    rewrite str_eqb_neq by assumption; reflexivity.
Qed.

Lemma keys_dict_set (k v : str) (d : dict) :
  In k (keys d) -> keys (dict_set k v d) = keys d.
Proof.
  induction d as [|[k' v'] d IH]; simpl; [intros []|].
  destruct (str_eqb k k') eqn:E; simpl; [reflexivity|].
  intros [H | H]; [|rewrite IH by assumption; reflexivity].
  subst k'; rewrite str_eqb_refl in E; discriminate.
Qed.

Lemma dict_get_in (k : str) (d : dict) :
  In k (keys d) -> dict_get k d = Ok (lookup k d).
Proof.
  unfold lookup; induction d as [|[k' v'] d IH]; simpl; [intros []|].
  destruct (str_eqb k k') eqn:E; [reflexivity|].
  intros [H | H]; [|auto].
  subst k'; rewrite str_eqb_refl in E; discriminate.
Qed.

Lemma lookup_set_same (k v : str) (d : dict) : lookup k (dict_set k v d) = v.
Proof. unfold lookup; rewrite dict_get_set_same; reflexivity. Qed.

Lemma lookup_set_other (k k' v : str) (d : dict) :
  k' <> k -> lookup k' (dict_set k v d) = lookup k' d.
Proof.
  intros H; unfold lookup; rewrite dict_get_set_other by assumption.
  reflexivity.
Qed.

Lemma keys_strip_values (d : dict) : keys (strip_values d) = keys d.
Proof.
  unfold keys, strip_values; rewrite map_map; reflexivity.
Qed.

Lemma dict_get_strip_values (k : str) (d : dict) :
  dict_get k (strip_values d) = (v <- dict_get k d ;; Ok (strip v)).
Proof.
  induction d as [|[k' v'] d IH]; simpl; [reflexivity|].
  destruct (str_eqb k k'); [reflexivity | exact IH].
Qed.

Lemma identity_in_fields (f : str) : In f IDENTITY_FIELDS -> In f FIELD_NAMES.
Proof. intros H; apply in_or_app; left; exact H. Qed.

Lemma section_in_fields (s : str) : In s SECTION_FIELDS -> In s FIELD_NAMES.
Proof. intros H; apply in_or_app; right; exact H. Qed.

Lemma identity_not_section (f s : str) :
  In f IDENTITY_FIELDS -> In s SECTION_FIELDS -> f <> s.
Proof.
  intros Hf Hs E; subst s.
  repeat (destruct Hf as [<- | Hf]; [
    repeat (destruct Hs as [Hs | Hs]; [discriminate Hs|]); exact Hs |]).
  exact Hf.
Qed.

(** A dictionary with the ten keys in their order is a list of ten
    entries. *)
Lemma record_shape (d : dict) :
  keys d = FIELD_NAMES ->
  exists v1 v2 v3 v4 v5 v6 v7 v8 v9 v10,
    d = [(Full_Name, v1); (Professional_Title, v2); (Email, v3);
         (Phone, v4); (Location, v5); (Profile_Summary, v6);
         (Professional_Experience, v7); (Project_Experience, v8);
         (Technical_Skills, v9); (Soft_Skills, v10)].
Proof.
  unfold keys, FIELD_NAMES, IDENTITY_FIELDS, SECTION_FIELDS; intros H.
  do 10 (destruct d as [|[? ?] d]; [discriminate H|];
         cbn [map fst app] in H; injection H as <- H).
  destruct d; [|discriminate H].
  do 10 eexists; reflexivity.
Qed.

(** ** The loop of the parser *)

(** Lowering never turns another character into a colon; for the Unicode
    tables this is a property of the interpreter. *)
Hypothesis unicode_lower_colon :
  forall s, In COLON (unicode_lower s) -> In COLON s.

Lemma ascii_lower_colon (c : char) : ascii_lower c = COLON -> c = COLON.
Proof.
  unfold ascii_lower, COLON.
  destruct ((65 <=? c) && (c <=? 90)) eqn:E; [|auto].
  apply andb_true_iff in E; destruct E as [E1 E2].
  apply N.leb_le in E1; lia.
Qed.

Lemma lower_colon (s : str) : In COLON (lower s) -> In COLON s.
Proof using unicode_lower_colon.
  unfold lower; destruct (is_ascii s); [|apply unicode_lower_colon].
  rewrite in_map_iff; intros [c [E Hc]].
  apply ascii_lower_colon in E; subst c; exact Hc.
Qed.

Lemma first_match_some (table : list (str * str)) (l f : str) :
  first_match table l = Some f ->
  exists pat, In (pat, f) table /\ contains pat l = true.
Proof.
  unfold first_match.
  destruct (find _ table) as [[pat g]|] eqn:E; [|discriminate].
  simpl; intros H; injection H as ->.
  apply find_some in E; simpl in E; exists pat; exact E.
Qed.

Lemma identity_field_some (line f : str) :
  identity_field line = Some f -> In f IDENTITY_FIELDS /\ In COLON line.
Proof using unicode_lower_colon.
  intros H; apply first_match_some in H; destruct H as [pat [Hin Hc]].
  assert (P : In f IDENTITY_FIELDS /\ In COLON pat).
  { repeat (destruct Hin as [Hin | Hin];
            [injection Hin as <- <-; split; in_list|]).
    destruct Hin. }
  destruct P as [Pf Pc]; split; [exact Pf|].
  apply lower_colon; exact (contains_incl _ _ Hc _ Pc).
Qed.

Lemma heading_field_some (line s : str) :
  heading_field line = Some s -> In s SECTION_FIELDS.
Proof.
  intros H; apply first_match_some in H; destruct H as [pat [Hin _]].
  repeat (destruct Hin as [Hin | Hin];
          [injection Hin as <- <-; in_list|]).
  destruct Hin.
Qed.

Lemma classify_identity (raw f : str) :
  classify raw = IdentityLine f <->
  truthy (strip raw) = true /\ identity_field (strip raw) = Some f.
Proof.
  unfold classify; destruct (truthy (strip raw)); simpl.
  - destruct (identity_field (strip raw)) as [g|].
    + split; [intros H; injection H as ->; auto|].
      intros [_ H]; injection H as ->; reflexivity.
    + destruct (heading_field (strip raw));
        (split; [discriminate | intros [_ H]; discriminate H]).
  - split; [discriminate | intros [H _]; discriminate H].
Qed.

Lemma classify_heading (raw s : str) :
  classify raw = HeadingLine s <->
  truthy (strip raw) = true /\ identity_field (strip raw) = None /\
  heading_field (strip raw) = Some s.
Proof.
  unfold classify; destruct (truthy (strip raw)); simpl.
  - destruct (identity_field (strip raw)) as [g|].
    + split; [discriminate | intros [_ [H _]]; discriminate H].
    + destruct (heading_field (strip raw)) as [h|].
      * split; [intros H; injection H as ->; auto|].
        intros [_ [_ H]]; injection H as ->; reflexivity.
      * split; [discriminate | intros [_ [_ H]]; discriminate H].
  - split; [discriminate | intros [H _]; discriminate H].
Qed.

(** [parse_line] is a case analysis on the class of the line. *)
Lemma parse_line_classified (data : dict) (ck : option str) (raw : str) :
  parse_line (data, ck) raw =
  match classify raw with
  | Blank => Ok (data, ck)
  | IdentityLine f =>
      d <- set_identity f (strip raw) data ;; Ok (d, ck)
  | HeadingLine s => Ok (data, Some s)
  | ContentLine =>
      match ck with
      | Some k =>
          old <- dict_get k data ;;
          Ok (dict_set k (old ++ strip raw ++ [NL]) data, ck)
      | None => Ok (data, ck)
      end
  end.
Proof.
  unfold parse_line, classify, identity_field, heading_field, first_match,
    IDENTITY_PATTERNS, HEADING_PATTERNS.
  destruct (negb (truthy (strip raw))); [reflexivity|].
  cbn [find fst snd].
  repeat match goal with
         | |- context [contains ?p ?l] =>
             destruct (contains p l); cbn [option_map snd]; try reflexivity
         end.
Qed.

Lemma set_identity_value (f raw : str) (data : dict) :
  classify raw = IdentityLine f ->
  set_identity f (strip raw) data = Ok (dict_set f (identity_value raw) data).
Proof using unicode_lower_colon.
  intros H; apply classify_identity in H; destruct H as [_ H].
  apply identity_field_some in H; destruct H as [_ H].
  unfold set_identity, identity_value.
  rewrite (split1_index _ _ H); reflexivity.
Qed.

Lemma parse_line_step (st : parser_state) (raw : str) :
  well_formed st ->
  parse_line st raw = Ok (step st raw) /\ well_formed (step st raw).
Proof using unicode_lower_colon.
  destruct st as [data ck]; intros [K A]; simpl in K, A.
  rewrite parse_line_classified; unfold step, well_formed; simpl.
  destruct (classify raw) as [|f|s|] eqn:C.
  - auto.
  - rewrite (set_identity_value _ _ _ C); simpl; split; [reflexivity|].
    split; [|exact A].
    apply classify_identity in C; destruct C as [_ C].
    apply identity_field_some in C; destruct C as [C _].
    rewrite keys_dict_set; [exact K|].
    rewrite K; apply identity_in_fields; exact C.
  - split; [reflexivity|]; split; [exact K|].
    apply classify_heading in C; destruct C as [_ [_ C]].
    exact (heading_field_some _ _ C).
  - destruct ck as [k|]; simpl; [|auto].
    assert (Hk : In k (keys data))
      by (rewrite K; apply section_in_fields; exact A).
    rewrite (dict_get_in _ _ Hk); simpl; split; [reflexivity|].
    rewrite keys_dict_set by assumption; auto.
Qed.

(** The loop never raises from a well-formed state: it is the fold of
    [step]. *)
Lemma for_each_parse_line (lines : list str) (st : parser_state) :
  well_formed st ->
  for_each parse_line lines st = Ok (fold_left step lines st) /\
  well_formed (fold_left step lines st).
Proof using unicode_lower_colon.
  revert st; induction lines as [|raw lines IH]; intros st W; simpl.
  - auto.
  - destruct (parse_line_step st raw W) as [E W']; rewrite E; simpl.
    apply IH; exact W'.
Qed.

Lemma well_formed_initial : well_formed (empty_record, None).
Proof. split; [reflexivity | exact I]. Qed.

Lemma parse_ai_response_fold (text : str) :
  parse_ai_response text =
  Ok (strip_values (fst (fold_left step (split NL text) (empty_record, None))))
  /\ keys (fst (fold_left step (split NL text) (empty_record, None)))
     = FIELD_NAMES.
Proof using unicode_lower_colon.
  destruct (for_each_parse_line (split NL text) _ well_formed_initial)
    as [E [K _]].
  unfold parse_ai_response; rewrite E; auto.
Qed.

(** ** What the loop leaves in each field *)

Lemma find_app {A} (p : A -> bool) (a b : list A) :
  find p (a ++ b) = match find p a with Some x => Some x | None => find p b end.
Proof.
  induction a as [|x a IH]; simpl; [reflexivity|].
  destruct (p x); [reflexivity | exact IH].
Qed.

Lemma find_none_iff {A} (p : A -> bool) (l : list A) :
  find p l = None <-> forall x, In x l -> p x = false.
Proof.
  split; [apply find_none|].
  induction l as [|x l IH]; simpl; [reflexivity|]; intros H.
  rewrite (H x) by auto; apply IH; intros y Hy; apply H; auto.
Qed.

Lemma is_identity_line_true (f raw : str) :
  is_identity_line f raw = true <-> classify raw = IdentityLine f.
Proof.
  unfold is_identity_line; destruct (classify raw) as [|g|h|];
    try (split; discriminate).
  rewrite str_eqb_eq; split; [intros ->; reflexivity|].
  intros H; injection H; auto.
Qed.

Lemma step_identity (f : str) (st : parser_state) (raw : str) :
  In f IDENTITY_FIELDS -> well_formed st ->
  lookup f (fst (step st raw)) =
  if is_identity_line f raw then identity_value raw else lookup f (fst st).
Proof.
  intros Hf [K A]; unfold step, is_identity_line.
  destruct (classify raw) as [|g|h|] eqn:C; simpl; try reflexivity.
  - destruct (str_eqb g f) eqn:E.
    + apply str_eqb_eq in E; subst g; apply lookup_set_same.
    + apply lookup_set_other; intros ->.
      rewrite str_eqb_refl in E; discriminate.
  - destruct (snd st) as [k|]; simpl; [|reflexivity].
    apply lookup_set_other, identity_not_section; assumption.
Qed.

Lemma fold_identity (f : str) (lines : list str) (st : parser_state) :
  In f IDENTITY_FIELDS -> well_formed st ->
  lookup f (fst (fold_left step lines st)) =
  match find (is_identity_line f) (rev lines) with
  | Some raw => identity_value raw
  | None => lookup f (fst st)
  end.
Proof using unicode_lower_colon.
  intros Hf; revert st; induction lines as [|raw lines IH]; intros st W.
  - reflexivity.
  - simpl; rewrite find_app.
    destruct (parse_line_step st raw W) as [_ W'].
    rewrite (IH _ W').
    destruct (find (is_identity_line f) (rev lines)); [reflexivity|].
    rewrite step_identity by assumption; simpl.
    destruct (is_identity_line f raw); reflexivity.
Qed.

Lemma step_section (s : str) (st : parser_state) (raw : str) :
  In s SECTION_FIELDS -> well_formed st ->
  lookup s (fst (step st raw)) =
  lookup s (fst st) ++
  match classify raw with
  | ContentLine =>
      if option_str_eqb (snd st) s then strip raw ++ [NL] else []
  | _ => []
  end.
Proof using unicode_lower_colon.
  intros Hs [K A]; unfold step.
  destruct (classify raw) as [|g|h|] eqn:C; simpl;
    rewrite ?app_nil_r; try reflexivity.
  - apply lookup_set_other; intros ->.
    apply classify_identity in C; destruct C as [_ C].
    apply identity_field_some in C; destruct C as [C _].
    exact (identity_not_section _ _ C Hs eq_refl).
  - destruct (snd st) as [k|]; simpl; [|rewrite app_nil_r; reflexivity].
    destruct (str_eqb k s) eqn:E.
    + apply str_eqb_eq in E; subst k; apply lookup_set_same.
    + rewrite app_nil_r; apply lookup_set_other; intros ->.
      rewrite str_eqb_refl in E; discriminate.
Qed.

Lemma step_active (st : parser_state) (raw : str) :
  snd (step st raw) =
  match classify raw with
  | HeadingLine h => Some h
  | _ => snd st
  end.
Proof.
  destruct st as [data ck]; unfold step; simpl.
  destruct (classify raw); try reflexivity.
  destruct ck; reflexivity.
Qed.

Lemma fold_section (s : str) (lines : list str) (st : parser_state) :
  In s SECTION_FIELDS -> well_formed st ->
  lookup s (fst (fold_left step lines st)) =
  lookup s (fst st) ++
  concat (map (fun l => l ++ [NL]) (section_lines s (snd st) lines)).
Proof using unicode_lower_colon.
  intros Hs; revert st; induction lines as [|raw lines IH]; intros st W.
  - simpl; rewrite app_nil_r; reflexivity.
  - destruct (parse_line_step st raw W) as [_ W'].
    cbn [fold_left section_lines]; rewrite (IH _ W').
    rewrite step_section, step_active by assumption.
    destruct (classify raw); rewrite ?app_nil_r; try reflexivity.
    destruct (option_str_eqb (snd st) s); rewrite ?app_nil_r;
      [|reflexivity].
    cbn [map concat]; rewrite <- !app_assoc; reflexivity.
Qed.

Lemma classify_content_truthy (raw : str) :
  classify raw = ContentLine -> strip raw <> [].
Proof.
  unfold classify; destruct (strip raw); [discriminate | discriminate].
Qed.

Lemma section_lines_trimmed (s : str) (lines : list str) (a : option str) :
  Forall (fun l => trimmed l /\ l <> []) (section_lines s a lines).
Proof.
  revert a; induction lines as [|raw lines IH]; intros a; simpl;
    [constructor|].
  destruct (classify raw) eqn:C; auto.
  destruct (option_str_eqb a s); auto.
  constructor; [|auto].
  split; [apply strip_trimmed | apply classify_content_truthy; exact C].
Qed.

Lemma section_lines_no_heading (s : str) (lines : list str) (a : option str) :
  option_str_eqb a s = false ->
  (forall raw, In raw lines -> classify raw <> HeadingLine s) ->
  section_lines s a lines = [].
Proof.
  revert a; induction lines as [|raw lines IH]; intros a Ha H; simpl;
    [reflexivity|].
  assert (Hrest : forall r, In r lines -> classify r <> HeadingLine s)
    by (intros r Hr; apply H; right; exact Hr).
  destruct (classify raw) as [|g|h|] eqn:C; auto.
  - apply IH; [|exact Hrest]; simpl.
    apply str_eqb_neq; intros ->; apply (H raw); [left; reflexivity|].
    exact C.
  - rewrite Ha; auto.
Qed.

Lemma lookup_empty_record (k : str) : lookup k empty_record = [].
Proof.
  unfold lookup, empty_record.
  induction FIELD_NAMES as [|k' l IH]; simpl; [reflexivity|].
  destruct (str_eqb k k'); [reflexivity | exact IH].
Qed.

(** The value of an identity field in the parsed record. *)
Lemma parsed_identity (text f : str) :
  In f IDENTITY_FIELDS ->
  exists d,
    parse_ai_response text = Ok d /\
    dict_get f d =
    Ok match find (is_identity_line f) (rev (split NL text)) with
       | Some raw => identity_value raw
       | None => []
       end.
Proof using unicode_lower_colon.
  intros Hf; destruct (parse_ai_response_fold text) as [E K].
  eexists; split; [exact E|].
  rewrite dict_get_strip_values, dict_get_in
    by (rewrite K; apply identity_in_fields; exact Hf).
  simpl; rewrite fold_identity by (auto using well_formed_initial).
  simpl; rewrite lookup_empty_record.
  destruct (find _ _); [|reflexivity].
  unfold identity_value; rewrite strip_idem; reflexivity.
Qed.

(** The value of a section field in the parsed record. *)
Lemma parsed_section (text s : str) :
  In s SECTION_FIELDS ->
  exists d,
    parse_ai_response text = Ok d /\
    dict_get s d = Ok (join [NL] (section_lines s None (split NL text))).
Proof using unicode_lower_colon.
  intros Hs; destruct (parse_ai_response_fold text) as [E K].
  eexists; split; [exact E|].
  rewrite dict_get_strip_values, dict_get_in
    by (rewrite K; apply section_in_fields; exact Hs).
  simpl; rewrite fold_section by (auto using well_formed_initial).
  simpl; rewrite lookup_empty_record; simpl.
  rewrite strip_accumulated by apply section_lines_trimmed; reflexivity.
Qed.

(** ** The parser: properties *)

(** A line that contains exactly one pattern of a table matches it. *)
Lemma first_match_unique (table : list (str * str)) (l pat f : str) :
  NoDup (map fst table) ->
  In (pat, f) table ->
  contains pat l = true ->
  (forall pat' f', In (pat', f') table -> pat' <> pat ->
                   contains pat' l = false) ->
  first_match table l = Some f.
Proof.
  unfold first_match; induction table as [|[p0 f0] table IH]; simpl;
    [intros _ []|].
  intros D [E | Hin] Hc Hothers.
  - injection E as -> ->; rewrite Hc; reflexivity.
  - inversion D as [|x xs Hnot D']; subst.
    assert (Hne : p0 <> pat).
    { intros ->; apply Hnot.
      change pat with (fst (pat, f)); apply in_map; exact Hin. }
    rewrite (Hothers p0 f0 (or_introl eq_refl) Hne).
    apply IH; [exact D' | exact Hin | exact Hc|].
    intros pat' f' Hin' Hne'; apply (Hothers pat' f'); [right|]; assumption.
Qed.

Lemma NoDup_identity_patterns : NoDup (map fst IDENTITY_PATTERNS).
Proof.
  repeat (constructor;
          [vm_compute; intros H;
           repeat (destruct H as [H | H]; [discriminate H|]); exact H|]).
  constructor.
Qed.

Lemma NoDup_heading_patterns : NoDup (map fst HEADING_PATTERNS).
Proof.
  repeat (constructor;
          [vm_compute; intros H;
           repeat (destruct H as [H | H]; [discriminate H|]); exact H|]).
  constructor.
Qed.

Lemma identity_field_truthy (line f : str) :
  identity_field line = Some f -> truthy line = true.
Proof using unicode_lower_colon.
  intros H; apply identity_field_some in H; destruct H as [_ H].
  destruct line; [destruct H | reflexivity].
Qed.

Lemma heading_field_truthy (line s : str) :
  heading_field line = Some s -> truthy line = true.
Proof.
  destruct line; [discriminate | reflexivity].
Qed.

(** C1.  For every reply text [parse_ai_response] returns (it never raises),
    and the keys of the record are exactly the ten field names, each once
    and in the fixed order: every field can be read, and a field for which
    the text has neither an identity line nor a heading line holds the
    empty string. *)
Theorem parse_ai_response_ten_fields (text : str) :
  exists d,
    parse_ai_response text = Ok d /\
    keys d = FIELD_NAMES /\
    (forall k, In k FIELD_NAMES -> exists v, dict_get k d = Ok v) /\
    (forall k,
        In k FIELD_NAMES ->
        (forall raw, In raw (split NL text) ->
                     classify raw <> IdentityLine k /\
                     classify raw <> HeadingLine k) ->
        dict_get k d = Ok []).
Proof using unicode_lower_colon.
  destruct (parse_ai_response_fold text) as [E K].
  eexists; split; [exact E|].
  split; [rewrite keys_strip_values; exact K|].
  split.
  - intros k Hk; rewrite dict_get_strip_values, dict_get_in
      by (rewrite K; exact Hk).
    simpl; eauto.
  - intros k Hk Hnone.
    apply in_app_or in Hk; destruct Hk as [Hk | Hk].
    + destruct (parsed_identity text k Hk) as [d [E' V]].
      rewrite E in E'; injection E' as <-; rewrite V.
      replace (find (is_identity_line k) (rev (split NL text)))
        with (@None str); [reflexivity|].
      symmetry; apply find_none_iff; intros raw Hraw.
      apply in_rev in Hraw.
      destruct (is_identity_line k raw) eqn:I; [|reflexivity].
      apply is_identity_line_true in I.
      destruct (Hnone raw Hraw) as [N _]; contradiction.
    + destruct (parsed_section text k Hk) as [d [E' V]].
      rewrite E in E'; injection E' as <-; rewrite V.
      rewrite section_lines_no_heading; [reflexivity | reflexivity|].
      intros raw Hraw; apply (Hnone raw Hraw).
Qed.

(** C2, as amended.  Each section field of the record is the accumulation,
    joined by newlines and in source order, of the trimmed content lines
    met while that section was active, a content line being a non-blank
    line that matches neither an identity pattern nor a heading pattern.
    In particular, when the lines of the input are a Full Name line, a
    Profile Summary heading, two content lines, a Technical Skills heading
    and one content line, Profile Summary is the two lines joined by a
    newline and Technical Skills is the one line. *)
Theorem section_field_accumulates :
  (forall text s,
      In s SECTION_FIELDS ->
      exists d,
        parse_ai_response text = Ok d /\
        dict_get s d = Ok (join [NL] (section_lines s None (split NL text))))
  /\
  (forall text name_line h1 l1 l2 h2 l3,
      split NL text = [name_line; h1; l1; l2; h2; l3] ->
      classify name_line = IdentityLine Full_Name ->
      classify h1 = HeadingLine Profile_Summary ->
      classify l1 = ContentLine ->
      classify l2 = ContentLine ->
      classify h2 = HeadingLine Technical_Skills ->
      classify l3 = ContentLine ->
      exists d,
        parse_ai_response text = Ok d /\
        dict_get Profile_Summary d = Ok (strip l1 ++ [NL] ++ strip l2) /\
        dict_get Technical_Skills d = Ok (strip l3)).
Proof using unicode_lower_colon.
  split; [intros text s Hs; apply parsed_section; exact Hs|].
  intros text name_line h1 l1 l2 h2 l3 L C0 C1 C2 C3 C4 C5.
  destruct (parsed_section text Profile_Summary) as [d [E V1]];
    [in_list|].
  destruct (parsed_section text Technical_Skills) as [d' [E' V2]];
    [in_list|].
  rewrite E in E'; injection E' as <-.
  exists d; split; [exact E|].
  rewrite V1, V2, L; cbn [section_lines].
  rewrite C0, C1, C2, C3, C4, C5.
  split; reflexivity.
Qed.

(** C5.  A line that matches an identity pattern (the first of the five, in
    the order in which they are tried, that the lowered line contains) sets
    that pattern's field to the text after the first colon of the line,
    trimmed; the other fields and the active section are left as they
    were.  A line that contains one pattern only matches that pattern.
    The reply [Email: a@b.com extra] yields that whole remainder as
    Email. *)
Theorem identity_line_sets_field :
  (forall line pat f,
      In (pat, f) IDENTITY_PATTERNS ->
      contains pat (lower line) = true ->
      (forall pat' f', In (pat', f') IDENTITY_PATTERNS -> pat' <> pat ->
                       contains pat' (lower line) = false) ->
      identity_field line = Some f)
  /\
  (forall data ck raw f,
      identity_field (strip raw) = Some f ->
      exists data',
        parse_line (data, ck) raw = Ok (data', ck) /\
        dict_get f data' = Ok (strip (after_first COLON (strip raw))) /\
        (forall k, k <> f -> dict_get k data' = dict_get k data))
  /\
  (exists d,
      parse_ai_response (u "Email: a@b.com extra") = Ok d /\
      dict_get Email d = Ok (u "a@b.com extra")).
Proof using unicode_lower_colon.
  split; [|split].
  - intros line pat f Hin Hc Hothers.
    exact (first_match_unique _ _ _ _ NoDup_identity_patterns Hin Hc Hothers).
  - intros data ck raw f H.
    assert (C : classify raw = IdentityLine f).
    { apply classify_identity; split; [|exact H].
      exact (identity_field_truthy _ _ H). }
    rewrite parse_line_classified, C, (set_identity_value _ _ _ C); simpl.
    eexists; split; [reflexivity|]; split.
    + apply dict_get_set_same.
    + intros k Hk; apply dict_get_set_other; exact Hk.
  - eexists; split; vm_compute; reflexivity.
Qed.

(** C6.  A line whose lowered text contains a heading pattern anywhere, and
    no identity pattern, makes that heading's section the active one and
    is consumed: no field changes, so what follows the heading's colon on
    the line is appended nowhere.  The heading is the first of the five,
    in the order in which they are tried, that the line contains; a line
    that contains one heading pattern only has that heading.  A heading in
    the middle of a line switches the section all the same. *)
Theorem heading_line_switches_section :
  (forall line pat s,
      In (pat, s) HEADING_PATTERNS ->
      contains pat (lower line) = true ->
      (forall pat' s', In (pat', s') HEADING_PATTERNS -> pat' <> pat ->
                       contains pat' (lower line) = false) ->
      heading_field line = Some s)
  /\
  (forall data ck raw s,
      identity_field (strip raw) = None ->
      heading_field (strip raw) = Some s ->
      parse_line (data, ck) raw = Ok (data, Some s))
  /\
  (exists d,
      parse_ai_response
        (join [NL] [u "Profile Summary: ignored"; u "first";
                    u "now my TECHNICAL SKILLS: Python"; u "second"])
      = Ok d /\
      dict_get Profile_Summary d = Ok (u "first") /\
      dict_get Technical_Skills d = Ok (u "second")).
Proof.
  split; [|split].
  - intros line pat s Hin Hc Hothers.
    exact (first_match_unique _ _ _ _ NoDup_heading_patterns Hin Hc Hothers).
  - intros data ck raw s Hi Hh.
    assert (C : classify raw = HeadingLine s).
    { apply classify_heading; repeat split; try assumption.
      exact (heading_field_truthy _ _ Hh). }
    rewrite parse_line_classified, C; reflexivity.
  - eexists; repeat split; vm_compute; reflexivity.
Qed.

(** C9.  When several lines match the same identity pattern, the record
    holds the value of the last of them: for a matching line after which no
    line of the text matches that pattern again, the field is that line's
    value. *)
Theorem last_identity_line_wins
  (text f : str) (before after : list str) (raw : str) :
  split NL text = before ++ raw :: after ->
  classify raw = IdentityLine f ->
  (forall r, In r after -> classify r <> IdentityLine f) ->
  exists d,
    parse_ai_response text = Ok d /\
    dict_get f d = Ok (strip (after_first COLON (strip raw))).
Proof using unicode_lower_colon.
  intros L C Hafter.
  assert (Hf : In f IDENTITY_FIELDS).
  { apply classify_identity in C; destruct C as [_ C].
    apply identity_field_some in C; destruct C as [C _]; exact C. }
  destruct (parsed_identity text f Hf) as [d [E V]].
  exists d; split; [exact E|].
  rewrite V, L, rev_app_distr; simpl; rewrite <- app_assoc, find_app.
  replace (find (is_identity_line f) (rev after)) with (@None str).
  - simpl; apply is_identity_line_true in C; rewrite C; reflexivity.
  - symmetry; apply find_none_iff; intros r Hr; apply in_rev in Hr.
    destruct (is_identity_line f r) eqn:I; [|reflexivity].
    apply is_identity_line_true in I; destruct (Hafter r Hr I).
Qed.

(** ** The document builder: properties *)

Lemma ascii_lower_upper (c : char) : ascii_lower (ascii_upper c) = ascii_lower c.
Proof.
  unfold ascii_lower, ascii_upper.
  destruct (N.leb_spec 97 c), (N.leb_spec c 122); simpl;
    repeat match goal with
           | |- context [?a <=? ?b] => destruct (N.leb_spec a b); simpl
           end; lia.
Qed.

Lemma match_literal_upper (l rest : str) :
  is_ascii l = true -> match_literal (map ascii_upper l) (l ++ rest) = Some rest.
Proof.
  induction l as [|c l IH]; simpl; [reflexivity|].
  rewrite andb_true_iff; intros [Hc Hl].
  unfold re_ieq; rewrite Hc, ascii_lower_upper, N.eqb_refl; auto.
Qed.

Lemma match_literal_head (pat s : str) (p c : char) :
  hd_error pat = Some p -> hd_error s = Some c ->
  (c <? 128) = true -> ascii_lower p <> ascii_lower (ascii_upper c) ->
  match_literal pat s = None.
Proof.
  destruct pat as [|p' pat]; [discriminate|].
  destruct s as [|c' s]; [discriminate|]; simpl.
  intros Hp Hs Hc Hne; injection Hp as ->; injection Hs as ->.
  unfold re_ieq; rewrite Hc; rewrite ascii_lower_upper in Hne.
  apply N.eqb_neq in Hne; rewrite Hne; reflexivity.
Qed.

(** A label written in ASCII letters of either case at the head of the
    title is what the pattern removes. *)
Lemma match_label (label l rest : str) :
  In label TITLE_LABELS -> is_ascii l = true -> map ascii_upper l = label ->
  match_alternatives TITLE_LABELS (l ++ rest) = Some rest.
Proof.
  intros Hin Ha Hm; unfold TITLE_LABELS in *; cbn [match_alternatives].
  destruct Hin as [<- | [<- | [<- | []]]].
  - rewrite <- Hm, match_literal_upper by assumption; reflexivity.
  - destruct l as [|c l]; [discriminate Hm|].
    assert (Hc : (c <? 128) = true)
      by (simpl in Ha; apply andb_true_iff in Ha; destruct Ha; assumption).
    assert (Hu : ascii_upper c = 84) by (injection Hm; auto).
    rewrite (match_literal_head _ ((c :: l) ++ rest) 80 c);
      try reflexivity; try assumption.
    + rewrite <- Hm, match_literal_upper by assumption; reflexivity.
    + rewrite Hu; discriminate.
  - destruct l as [|c l]; [discriminate Hm|].
    assert (Hc : (c <? 128) = true)
      by (simpl in Ha; apply andb_true_iff in Ha; destruct Ha; assumption).
    assert (Hu : ascii_upper c = 68) by (injection Hm; auto).
    rewrite (match_literal_head _ ((c :: l) ++ rest) 80 c);
      try reflexivity; try assumption; [|rewrite Hu; discriminate].
    rewrite (match_literal_head _ ((c :: l) ++ rest) 84 c);
      try reflexivity; try assumption; [|rewrite Hu; discriminate].
    rewrite <- Hm, match_literal_upper by assumption; reflexivity.
Qed.

Lemma upper_nil : upper [] = [].
Proof. reflexivity. Qed.




(** ** The collaborators: properties *)

Lemma read_pages_raise (pages : list page) (acc : str) (e : exn) :
  snd (read_pages pages acc) = Raise e ->
  read_pages pages acc = (acc ++ text_before_failure pages, Raise e).
Proof.
  revert acc; induction pages as [|[t|] pages IH]; intros acc; simpl.
  - discriminate.
  - intros H; rewrite (IH _ H), <- !app_assoc; reflexivity.
  - intros H; rewrite app_nil_r; f_equal; exact H.
Qed.

Lemma read_file_raise (path : document_path) (e : exn) :
  snd (read_file path []) = Raise e ->
  read_file path [] = (pages_read path, Raise e).
Proof.
  unfold read_file, pages_read.
  destruct (endswith (u ".pdf") (lower path)).
  - destruct (pdfplumber_open path) as [|pages]; simpl.
    + intros H; f_equal; exact H.
    + intros H; rewrite (read_pages_raise _ _ _ H); reflexivity.
  - destruct (Document path) as [|ps]; simpl; [|discriminate].
    intros H; f_equal; exact H.
Qed.

(** C4, as amended.  [extract_text] never raises.  On a path whose
    extraction fails it reports the failure on the console and returns,
    trimmed, the text of the pages read before the failure: the empty
    string when the file is not a PDF, when the PDF does not open, or when
    its first page fails. *)
Theorem extract_text_on_failure :
  (forall path t, exists text t', extract_text path t = (Ok text, t')) /\
  (forall path e t,
      snd (read_file path []) = Raise e ->
      extract_text path t =
        (Ok (strip (pages_read path)),
         t ++ [Printed (u "Extraction Error") e]) /\
      (endswith (u ".pdf") (lower path) = false \/
       pdfplumber_open path = PdfOpenRaises \/
       (exists rest, pdfplumber_open path = PdfPages (PageRaises :: rest)) ->
       extract_text path t =
         (Ok [], t ++ [Printed (u "Extraction Error") e]))).
Proof.
  split.
  - intros path t; unfold extract_text.
    destruct (read_file path []) as [text [[]|e]]; eexists; eexists;
      reflexivity.
  - intros path e t H.
    assert (E : extract_text path t =
                (Ok (strip (pages_read path)),
                 t ++ [Printed (u "Extraction Error") e])).
    { unfold extract_text; rewrite (read_file_raise _ _ H); reflexivity. }
    split; [exact E|].
    intros Hc; rewrite E; unfold pages_read.
    destruct Hc as [-> | [-> | [rest ->]]]; [reflexivity | |].
    + destruct (endswith _ _); reflexivity.
    + destruct (endswith _ _); reflexivity.
Qed.

(** C8.  [safe_convert_to_pdf] never raises and always releases the COM
    runtime.  When the converter fails it returns the path of the document
    it was given; when the runtime starts and the converter succeeds it
    returns the PDF path.  [create_resume] returns what this step returns
    for the saved document and its PDF name. *)
Theorem safe_convert_to_pdf_fallback :
  (forall docx_path pdf_path t,
      exists p t',
        safe_convert_to_pdf docx_path pdf_path t
        = (Ok p, t' ++ [CoUninitialized])) /\
  (forall docx_path pdf_path t e,
      convert office docx_path pdf_path = Raise e ->
      fst (safe_convert_to_pdf docx_path pdf_path t) = Ok docx_path) /\
  (forall docx_path pdf_path t,
      CoInitialize office = Ok tt ->
      convert office docx_path pdf_path = Ok tt ->
      fst (safe_convert_to_pdf docx_path pdf_path t) = Ok pdf_path) /\
  (forall data path doc t,
      resume_paragraphs data = Ok doc ->
      let pdf_path := replace (u ".docx") (u ".pdf") path in
      (forall e,
          convert office path pdf_path = Raise e ->
          fst (create_resume data path t) = Ok (doc, path)) /\
      (CoInitialize office = Ok tt ->
       convert office path pdf_path = Ok tt ->
       fst (create_resume data path t) = Ok (doc, pdf_path))).
Proof.
  assert (Fail : forall docx_path pdf_path t e,
             convert office docx_path pdf_path = Raise e ->
             fst (safe_convert_to_pdf docx_path pdf_path t) = Ok docx_path).
  { intros docx_path pdf_path t e C.
    unfold safe_convert_to_pdf, try_finally, try_except, io_bind, call,
      print, ret.
    destruct (CoInitialize office) as [[]|e0]; rewrite ?C; reflexivity. }
  assert (Success : forall docx_path pdf_path t,
             CoInitialize office = Ok tt ->
             convert office docx_path pdf_path = Ok tt ->
             fst (safe_convert_to_pdf docx_path pdf_path t) = Ok pdf_path).
  { intros docx_path pdf_path t I C.
    unfold safe_convert_to_pdf, try_finally, try_except, io_bind, call,
      print, ret.
    rewrite I, C; reflexivity. }
  split; [|split; [exact Fail | split; [exact Success|]]].
  - intros docx_path pdf_path t.
    unfold safe_convert_to_pdf, try_finally, try_except, io_bind, call,
      print, ret.
    destruct (CoInitialize office) as [[]|e0];
      [destruct (convert office docx_path pdf_path) as [[]|e1]|];
      eexists; eexists; reflexivity.
  - intros data path doc t R pdf_path.
    assert (Step : fst (create_resume data path t) =
                   match fst (safe_convert_to_pdf path pdf_path
                                (t ++ [Saved path])) with
                   | Ok final => Ok (doc, final)
                   | Raise e => Raise e
                   end).
    { unfold create_resume, io_bind, lift, call, ret; rewrite R.
      fold pdf_path.
      destruct (safe_convert_to_pdf path pdf_path (t ++ [Saved path]))
        as [[final|e] t']; reflexivity. }
    split.
    + intros e C; rewrite Step, (Fail _ _ _ _ C); reflexivity.
    + intros I C; rewrite Step, (Success _ _ _ I C); reflexivity.
Qed.

(** ** More on the parser *)

Lemma for_each_app {S A} (body : S -> A -> result S) (xs ys : list A) (s : S) :
  for_each body (xs ++ ys) s = (s' <- for_each body xs s ;; for_each body ys s').
Proof.
  revert s; induction xs as [|x xs IH]; intros s; simpl; [reflexivity|].
  destruct (body s x); simpl; [apply IH | reflexivity].
Qed.

Lemma parse_line_strip (st : parser_state) (raw : str) :
  parse_line st (strip raw) = parse_line st raw.
Proof.
  destruct st as [data ck]; unfold parse_line; rewrite strip_idem.
  reflexivity.
Qed.

Lemma parse_line_blank (st : parser_state) (raw : str) :
  truthy (strip raw) = false -> parse_line st raw = Ok st.
Proof.
  destruct st as [data ck]; unfold parse_line; intros ->; reflexivity.
Qed.

Lemma for_each_trimmed_lines (lines : list str) (st : parser_state) :
  for_each parse_line lines st =
  for_each parse_line (filter truthy (map strip lines)) st.
Proof.
  revert st; induction lines as [|raw lines IH]; intros st; simpl;
    [reflexivity|].
  destruct (truthy (strip raw)) eqn:T; simpl.
  - rewrite parse_line_strip.
    destruct (parse_line st raw); simpl; [apply IH | reflexivity].
  - rewrite (parse_line_blank _ _ T); simpl; apply IH.
Qed.

(** X1.  The record depends on the reply only through its non-blank lines,
    trimmed: two replies with the same trimmed non-blank lines (different
    indentation, line ends or blank lines) parse alike. *)
Theorem parse_depends_on_trimmed_lines (text text' : str) :
  filter truthy (map strip (split NL text))
  = filter truthy (map strip (split NL text')) ->
  parse_ai_response text = parse_ai_response text'.
Proof.
  intros H; unfold parse_ai_response.
  rewrite (for_each_trimmed_lines (split NL text)),
    (for_each_trimmed_lines (split NL text')), H.
  reflexivity.
Qed.

(** X2.  Every value of a returned record is trimmed: no field starts or
    ends with white space. *)
Theorem parsed_values_trimmed (text : str) (d : dict) :
  parse_ai_response text = Ok d ->
  forall k v, In (k, v) d -> strip v = v.
Proof.
  unfold parse_ai_response.
  destruct (for_each parse_line (split NL text) (empty_record, None))
    as [st|e]; simpl; [|discriminate].
  intros H; injection H as <-; unfold strip_values.
  intros k v Hin; apply in_map_iff in Hin.
  destruct Hin as [[k' v'] [E _]]; simpl in E; injection E as _ <-.
  apply strip_idem.
Qed.

Lemma split_no_sep (sep : char) (s : str) :
  Forall (fun l => ~ In sep l) (split sep s).
Proof.
  induction s as [|c s IH]; simpl.
  - constructor; [intros [] | constructor].
  - destruct (N.eqb_spec c sep) as [->|Hne].
    + constructor; [intros [] | exact IH].
    + destruct (split sep s) as [|h t]; [constructor; [|constructor]|].
      * intros [E | []]; contradiction.
      * inversion IH as [|x xs Hh Ht]; subst.
        constructor; [|exact Ht].
        intros [E | Hin]; [contradiction | exact (Hh Hin)].
Qed.

Lemma split_without_sep (sep : char) (l : str) :
  ~ In sep l -> split sep l = [l].
Proof.
  induction l as [|c l IH]; simpl; [reflexivity|]; intros H.
  destruct (N.eqb_spec c sep) as [->|Hne]; [exfalso; apply H; left; reflexivity|].
  rewrite IH by (intros Hin; apply H; right; exact Hin); reflexivity.
Qed.

Lemma split_app_sep (sep : char) (l rest : str) :
  ~ In sep l -> split sep (l ++ sep :: rest) = l :: split sep rest.
Proof.
  induction l as [|c l IH]; simpl; intros H.
  - rewrite N.eqb_refl; reflexivity.
  - destruct (N.eqb_spec c sep) as [->|Hne];
      [exfalso; apply H; left; reflexivity|].
    rewrite IH by (intros Hin; apply H; right; exact Hin); reflexivity.
Qed.

(** Joining lines that hold no newline and splitting again is the
    identity. *)
Lemma split_join (sep : char) (ls : list str) :
  Forall (fun l => ~ In sep l) ls -> ls <> [] ->
  split sep (join [sep] ls) = ls.
Proof.
  induction 1 as [|l ls Hl Hls IH]; [intros H; destruct (H eq_refl)|];
    intros _.
  destruct ls as [|l' ls]; [simpl; apply split_without_sep; exact Hl|].
  change (join [sep] (l :: l' :: ls))
    with (l ++ sep :: join [sep] (l' :: ls)).
  rewrite split_app_sep by exact Hl.
  rewrite IH by discriminate; reflexivity.
Qed.

Lemma lstrip_incl (s : str) (c : char) : In c (lstrip s) -> In c s.
Proof.
  induction s as [|x s IH]; simpl; [auto|].
  destruct (isspace x); [intros H; right; exact (IH H) | auto].
Qed.

Lemma strip_incl (s : str) (c : char) : In c (strip s) -> In c s.
Proof.
  unfold strip, rstrip; intros H.
  apply in_rev, lstrip_incl, in_rev in H.
  apply lstrip_incl; exact H.
Qed.

Lemma section_lines_no_newline (s : str) (lines : list str) (a : option str) :
  Forall (fun l => ~ In NL l) lines ->
  Forall (fun l => ~ In NL l) (section_lines s a lines).
Proof.
  intros H; revert a; induction H as [|raw lines Hraw Hlines IH]; intros a;
    simpl; [constructor|].
  destruct (classify raw); auto.
  destruct (option_str_eqb a s); auto.
  constructor; [|auto].
  intros Hin; apply Hraw; exact (strip_incl _ _ Hin).
Qed.

(** X3.  Splitting a section field of the record on newlines gives back the
    content lines gathered for that section, one by one and in order; the
    field is empty exactly when there are none. *)
Theorem parsed_section_lines (text s : str) :
  In s SECTION_FIELDS ->
  exists d v,
    parse_ai_response text = Ok d /\
    dict_get s d = Ok v /\
    (section_lines s None (split NL text) = [] <-> v = []) /\
    (v <> [] -> split NL v = section_lines s None (split NL text)).
Proof using unicode_lower_colon.
  intros Hs; destruct (parsed_section text s Hs) as [d [E V]].
  exists d; eexists; split; [exact E|]; split; [exact V|].
  pose proof (section_lines_trimmed s (split NL text) None) as T.
  pose proof (section_lines_no_newline s (split NL text) None
                (split_no_sep NL text)) as N.
  destruct (section_lines s None (split NL text)) as [|l ls] eqn:L.
  - split; [split; reflexivity | intros H; contradiction].
  - destruct (join_trimmed (l :: ls) T) as [_ J]; [discriminate|].
    split; [split; [discriminate | intros H; contradiction]|].
    intros _; apply split_join; [exact N | discriminate].
Qed.

Lemma isspace_visible (c : char) : 33 <= c <= 126 -> isspace c = false.
Proof.
  intros [L U]; unfold isspace.
  assert (E1 : (c <=? 0x0D) = false) by (apply N.leb_gt; lia).
  assert (E2 : (c <=? 0x20) = false) by (apply N.leb_gt; lia).
  assert (E3 : (c =? 0x85) = false) by (apply N.eqb_neq; lia).
  assert (E4 : (c =? 0xA0) = false) by (apply N.eqb_neq; lia).
  assert (E5 : (c =? 0x1680) = false) by (apply N.eqb_neq; lia).
  assert (E6 : (0x2000 <=? c) = false) by (apply N.leb_gt; lia).
  assert (E7 : (c =? 0x2028) = false) by (apply N.eqb_neq; lia).
  assert (E8 : (c =? 0x2029) = false) by (apply N.eqb_neq; lia).
  assert (E9 : (c =? 0x202F) = false) by (apply N.eqb_neq; lia).
  assert (E10 : (c =? 0x205F) = false) by (apply N.eqb_neq; lia).
  assert (E11 : (c =? 0x3000) = false) by (apply N.eqb_neq; lia).
  rewrite E1, E2, E3, E4, E5, E6, E7, E8, E9, E10, E11.
  rewrite !andb_false_r; reflexivity.
Qed.

Lemma isspace_ascii_lower (c : char) : isspace (ascii_lower c) = isspace c.
Proof.
  unfold ascii_lower.
  destruct ((65 <=? c) && (c <=? 90)) eqn:E; [|reflexivity].
  apply andb_true_iff in E; destruct E as [L U].
  apply N.leb_le in L; apply N.leb_le in U.
  rewrite !isspace_visible by lia; reflexivity.
Qed.

Lemma lstrip_map_lower (s : str) :
  lstrip (map ascii_lower s) = map ascii_lower (lstrip s).
Proof.
  induction s as [|c s IH]; simpl; [reflexivity|].
  rewrite isspace_ascii_lower; destruct (isspace c); [exact IH | reflexivity].
Qed.

Lemma strip_map_lower (s : str) :
  strip (map ascii_lower s) = map ascii_lower (strip s).
Proof.
  unfold strip, rstrip.
  rewrite lstrip_map_lower, <- map_rev, lstrip_map_lower, map_rev.
  reflexivity.
Qed.

Lemma is_ascii_strip (s : str) : is_ascii s = true -> is_ascii (strip s) = true.
Proof.
  unfold is_ascii; rewrite !forallb_forall.
  intros H c Hc; apply H, strip_incl; exact Hc.
Qed.

Lemma lower_ascii (s : str) : is_ascii s = true -> lower s = map ascii_lower s.
Proof. unfold lower; intros ->; reflexivity. Qed.

Lemma truthy_map (f : char -> char) (s : str) :
  truthy (map f s) = truthy s.
Proof. destruct s; reflexivity. Qed.

(** X4.  Matching is blind to letter case: two ASCII lines that differ only
    in the case of their letters are of the same class, for the same
    field. *)
Theorem classify_ignores_case (raw raw' : str) :
  is_ascii raw = true -> is_ascii raw' = true ->
  map ascii_lower raw = map ascii_lower raw' ->
  classify raw = classify raw'.
Proof.
  intros A A' E.
  assert (L : lower (strip raw) = lower (strip raw')).
  { rewrite !lower_ascii by (apply is_ascii_strip; assumption).
    rewrite <- !strip_map_lower, E; reflexivity. }
  assert (T : truthy (strip raw) = truthy (strip raw')).
  { rewrite <- (truthy_map ascii_lower (strip raw)).
    rewrite <- (truthy_map ascii_lower (strip raw')).
    rewrite <- !strip_map_lower, E; reflexivity. }
  unfold classify, identity_field, heading_field; rewrite T, L.
  reflexivity.
Qed.

(** X5.  Whatever precedes the first heading and is not an identity line is
    dropped: a reply and the same reply without such leading lines parse
    alike. *)
Theorem unlabelled_preamble_dropped (text text' : str) (pre : list str) :
  split NL text = pre ++ split NL text' ->
  (forall raw, In raw pre ->
               classify raw = ContentLine \/ classify raw = Blank) ->
  parse_ai_response text = parse_ai_response text'.
Proof.
  intros L Hpre; unfold parse_ai_response; rewrite L, for_each_app.
  assert (P : for_each parse_line pre (empty_record, None)
              = Ok (empty_record, None)).
  { clear L; induction pre as [|raw pre IH]; [reflexivity|].
    cbn [for_each]; rewrite parse_line_classified.
    destruct (Hpre raw (or_introl eq_refl)) as [-> | ->]; cbn [bind];
      apply IH; intros r Hr; apply Hpre; right; exact Hr. }
  rewrite P; reflexivity.
Qed.

(** ** More on the document builder *)

Lemma dict_get_missing (k : str) (d : dict) :
  ~ In k (keys d) -> dict_get k d = Raise KeyError.
Proof.
  induction d as [|[k' v'] d IH]; simpl; [reflexivity|]; intros H.
  destruct (str_eqb k k') eqn:E.
  - apply str_eqb_eq in E; subst k'; exfalso; apply H; left; reflexivity.
  - apply IH; intros Hin; apply H; right; exact Hin.
Qed.

Lemma dict_get_present (k v : str) (d : dict) :
  dict_get k d = Ok v -> In k (keys d).
Proof.
  induction d as [|[k' v'] d IH]; simpl; [discriminate|].
  destruct (str_eqb k k') eqn:E; [|intros H; right; exact (IH H)].
  apply str_eqb_eq in E; subst k'; left; reflexivity.
Qed.

Lemma dict_get_key_error (k : str) (d : dict) (e : exn) :
  dict_get k d = Raise e -> e = KeyError.
Proof.
  induction d as [|[k' v'] d IH]; simpl; [intros H; injection H; auto|].
  destruct (str_eqb k k'); [discriminate | exact IH].
Qed.

Lemma filter_heading_content (lines : list str) :
  filter is_heading (flat_map content_paragraph lines) = [].
Proof.
  induction lines as [|l lines IH]; [reflexivity|].
  cbn [flat_map]; rewrite filter_app, IH, app_nil_r.
  unfold content_paragraph; destruct (negb (truthy (strip l))); reflexivity.
Qed.

Lemma filter_heading_contact (d : dict) :
  filter is_heading (contact_paragraphs d) = [].
Proof.
  unfold contact_paragraphs; destruct (contact_parts d); reflexivity.
Qed.

Lemma filter_heading_logo : filter is_heading [logo_paragraph] = [].
Proof.
  unfold logo_paragraph; destruct (find logo_exists _); reflexivity.
Qed.

(** The body of the document when the section keys are there: it never
    raises, and its headings are the titles of the non-empty sections. *)
Lemma sections_paragraphs_present (d : dict) (ss : list (str * str)) :
  (forall s, In s ss -> In (snd s) (keys d)) ->
  exists body,
    sections_paragraphs d ss = Ok body /\
    map text (filter is_heading body)
    = map fst (filter (fun s => truthy (lookup (snd s) d)) ss).
Proof.
  induction ss as [|[title k] ss IH]; intros H.
  - exists []; split; reflexivity.
  - destruct IH as [body [E F]]; [intros s Hs; apply H; right; exact Hs|].
    assert (Hk : In k (keys d)) by (apply (H (title, k)); left; reflexivity).
    cbn [sections_paragraphs]; unfold section_paragraphs; cbn [snd fst].
    rewrite (dict_get_in _ _ Hk); cbn [bind snd fst filter].
    destruct (truthy (lookup k d)); cbn [bind]; rewrite E; cbn [bind].
    + eexists; split; [reflexivity|].
      cbn [app filter is_heading size N.eqb Pos.eqb map text fst].
      rewrite filter_app, filter_heading_content; cbn [app].
      rewrite F; reflexivity.
    + eexists; split; [reflexivity|]; exact F.
Qed.

Lemma sections_paragraphs_keys (d : dict) (ss : list (str * str))
  (body : list paragraph) :
  sections_paragraphs d ss = Ok body ->
  forall s, In s ss -> In (snd s) (keys d).
Proof.
  revert body; induction ss as [|[title k] ss IH]; intros body;
    [intros _ s []|].
  cbn [sections_paragraphs]; unfold section_paragraphs at 1; cbn [snd fst].
  destruct (dict_get k d) as [v|e] eqn:G; cbn [bind]; [|discriminate].
  destruct (sections_paragraphs d ss) as [rest|e] eqn:R.
  - intros _ s [<- | Hs]; [exact (dict_get_present _ _ _ G)|].
    exact (IH rest eq_refl s Hs).
  - destruct (truthy v); cbn [bind]; discriminate.
Qed.

Lemma sections_paragraphs_key_error (d : dict) (ss : list (str * str))
  (e : exn) :
  sections_paragraphs d ss = Raise e -> e = KeyError.
Proof.
  induction ss as [|[title k] ss IH]; [discriminate|].
  cbn [sections_paragraphs]; unfold section_paragraphs at 1; cbn [snd fst].
  destruct (dict_get k d) as [v|e'] eqn:G; cbn [bind].
  - destruct (sections_paragraphs d ss) as [rest|e'];
      destruct (truthy v); cbn [bind]; try discriminate;
      intros H; apply IH; exact H.
  - intros H; injection H as <-; exact (dict_get_key_error _ _ _ G).
Qed.

Lemma sections_keys_required (d : dict) :
  REQUIRED_KEYS_present d -> forall s, In s SECTIONS -> In (snd s) (keys d).
Proof.
  intros H s Hs; apply H; right; right.
  repeat (destruct Hs as [<- | Hs]; [in_list|]); destruct Hs.
Qed.

Lemma resume_paragraphs_present (d : dict) :
  REQUIRED_KEYS_present d ->
  exists body,
    sections_paragraphs d SECTIONS = Ok body /\
    map text (filter is_heading body)
    = map fst (filter (fun s => truthy (lookup (snd s) d)) SECTIONS) /\
    resume_paragraphs d =
    Ok (logo_paragraph
        :: {| text := if truthy (upper (strip (sub_title_label
                                                 (lookup Professional_Title d))))
                      then upper (lookup Full_Name d) ++ [32; EN_DASH; 32]
                           ++ upper (strip (sub_title_label
                                              (lookup Professional_Title d)))
                      else upper (lookup Full_Name d);
              picture := None; size := Some 16; bold := true;
              color := Some BRAND; align := Some CENTER; pstyle := Normal |}
        :: contact_paragraphs d ++ body ++ footer).
Proof.
  intros H.
  destruct (sections_paragraphs_present d SECTIONS
              (sections_keys_required d H)) as [body [E F]].
  exists body; split; [exact E|]; split; [exact F|].
  unfold resume_paragraphs, display_line.
  rewrite (dict_get_in Full_Name d) by (apply H; left; reflexivity).
  rewrite (dict_get_in Professional_Title d)
    by (apply H; right; left; reflexivity).
  cbn [bind]; rewrite E; reflexivity.
Qed.


(** X7.  The section headings of the document are the titles of the
    sections whose field is non-empty, in the fixed order; an empty
    section leaves no heading. *)
Theorem document_headings (d : dict) :
  REQUIRED_KEYS_present d ->
  exists doc,
    resume_paragraphs d = Ok doc /\
    map text (filter is_heading doc)
    = map fst (filter (fun s => truthy (lookup (snd s) d)) SECTIONS).
Proof.
  intros H; destruct (resume_paragraphs_present d H) as (body & _ & F & E).
  eexists; split; [exact E|].
  change (logo_paragraph :: ?x :: ?rest)
    with ([logo_paragraph] ++ [x] ++ rest).
  rewrite !filter_app, filter_heading_logo, filter_heading_contact.
  cbn [app filter is_heading size N.eqb Pos.eqb].
  replace (filter is_heading footer) with (@nil paragraph) by reflexivity.
  rewrite app_nil_r; exact F.
Qed.

Lemma content_paragraph_trimmed (l : str) :
  trimmed l -> l <> [] ->
  map (fun p => (text p, pstyle p)) (content_paragraph l)
  = [(l, line_style l)].
Proof.
  intros T N; unfold content_paragraph; rewrite (trimmed_strip _ T).
  destruct l; [contradiction | reflexivity].
Qed.

Lemma content_paragraphs_trimmed (ls : list str) :
  Forall (fun l => trimmed l /\ l <> []) ls ->
  map (fun p => (text p, pstyle p)) (flat_map content_paragraph ls)
  = map (fun l => (l, line_style l)) ls.
Proof.
  induction 1 as [|l ls [T N] _ IH]; [reflexivity|].
  cbn [flat_map]; rewrite map_app, (content_paragraph_trimmed _ T N), IH.
  reflexivity.
Qed.

(** X8.  Parser and builder compose: for the record parsed from a reply,
    the paragraphs of a section are its title followed by the content
    lines gathered for it, one paragraph each and in order, bulleted when
    the line starts with a hyphen or a bullet; a section without content
    lines gives no paragraph. *)
Theorem parsed_section_paragraphs (reply title s : str) :
  In (title, s) SECTIONS ->
  exists d ps,
    parse_ai_response reply = Ok d /\
    section_paragraphs d (title, s) = Ok ps /\
    map (fun p => (text p, pstyle p)) ps
    = match section_lines s None (split NL reply) with
      | [] => []
      | ls => (title, Normal) :: map (fun l => (l, line_style l)) ls
      end.
Proof using unicode_lower_colon.
  intros Hin.
  assert (Hs : In s SECTION_FIELDS).
  { change SECTION_FIELDS with (map snd SECTIONS).
    change s with (snd (title, s)); apply in_map; exact Hin. }
  destruct (parsed_section reply s Hs) as [d [E V]].
  exists d; unfold section_paragraphs; cbn [snd fst]; rewrite V; cbn [bind].
  pose proof (section_lines_trimmed s (split NL reply) None) as T.
  pose proof (section_lines_no_newline s (split NL reply) None
                (split_no_sep NL reply)) as N.
  destruct (section_lines s None (split NL reply)) as [|l ls] eqn:L.
  - eexists; split; [exact E|]; split; reflexivity.
  - destruct (join_trimmed (l :: ls) T) as [_ J]; [discriminate|].
    destruct (join [NL] (l :: ls)) as [|c r] eqn:Jn; [contradiction|].
    cbn [truthy]; eexists; split; [exact E|]; split; [reflexivity|].
    cbn [map text pstyle]; f_equal.
    rewrite <- Jn, split_join by (assumption || discriminate).
    apply content_paragraphs_trimmed; exact T.
Qed.

Lemma startswith_docx_straddle (c : char) (q : str) :
  startswith DOCX (c :: q) = false ->
  startswith DOCX ((c :: q) ++ DOCX) = false.
Proof.
  destruct q as [|a [|b [|x [|y r]]]]; cbn; intros H;
    try exact H;
    repeat match goal with
           | |- context [N.eqb ?m ?n] => destruct (N.eqb m n); cbn
           end; reflexivity.
Qed.

Lemma contains_cons_false (p : str) (c : char) (q : str) :
  contains p (c :: q) = false ->
  startswith p (c :: q) = false /\ contains p q = false.
Proof.
  cbn [contains]; intros H; apply orb_false_iff in H; exact H.
Qed.

Lemma replace_from_suffix (base : str) :
  contains DOCX base = false ->
  replace_from DOCX PDF 0 (base ++ DOCX) = base ++ PDF.
Proof.
  induction base as [|c q IH]; intros H; [reflexivity|].
  apply contains_cons_false in H; destruct H as [S C].
  change ((c :: q) ++ DOCX) with (c :: (q ++ DOCX)).
  cbn [replace_from].
  change (c :: (q ++ DOCX)) with ((c :: q) ++ DOCX).
  rewrite (startswith_docx_straddle _ _ S), (IH C); reflexivity.
Qed.

Lemma replace_from_absent (p : str) :
  contains DOCX p = false -> replace_from DOCX PDF 0 p = p.
Proof.
  induction p as [|c q IH]; intros H; [reflexivity|].
  apply contains_cons_false in H; destruct H as [S C].
  cbn [replace_from]; rewrite S, (IH C); reflexivity.
Qed.

(** X9.  The PDF name [create_resume] derives from a path: a path made of a
    base without [.docx] followed by [.docx] becomes the base followed by
    [.pdf]; a path without [.docx] is left as it is, so that the PDF would
    be written over the document. *)
Theorem pdf_path_of_docx_path (base : str) :
  contains (u ".docx") base = false ->
  replace (u ".docx") (u ".pdf") (base ++ u ".docx") = base ++ u ".pdf" /\
  replace (u ".docx") (u ".pdf") base = base.
Proof.
  intros H; split.
  - exact (replace_from_suffix base H).
  - exact (replace_from_absent base H).
Qed.

Lemma safe_convert_to_pdf_returns (docx_path pdf_path : document_path)
  (t : list event) :
  exists p rest,
    safe_convert_to_pdf docx_path pdf_path t = (Ok p, t ++ rest) /\
    (p = docx_path \/ p = pdf_path).
Proof.
  unfold safe_convert_to_pdf, try_finally, try_except, io_bind, call,
    print, ret.
  destruct (CoInitialize office) as [[]|e0];
    [destruct (convert office docx_path pdf_path) as [[]|e1]|];
    eexists; eexists;
    (split; [cbv [call]; rewrite <- ?app_assoc; reflexivity|]); auto.
Qed.

Lemma parsed_record (text : str) :
  exists d, parse_ai_response text = Ok d /\ keys d = FIELD_NAMES.
Proof using unicode_lower_colon.
  destruct (parse_ai_response_fold text) as [E K].
  eexists; split; [exact E|]; rewrite keys_strip_values; exact K.
Qed.

Lemma record_required_keys (d : dict) :
  keys d = FIELD_NAMES -> REQUIRED_KEYS_present d.
Proof.
  intros K k Hk; rewrite K.
  destruct Hk as [<- | [<- | Hk]]; [in_list | in_list|].
  apply section_in_fields; exact Hk.
Qed.

Lemma create_resume_record (d : dict) (path : document_path)
  (t : list event) :
  keys d = FIELD_NAMES ->
  exists doc final t',
    create_resume d path t = (Ok (doc, final), t') /\
    resume_paragraphs d = Ok doc /\
    (final = path \/ final = replace (u ".docx") (u ".pdf") path).
Proof.
  intros K.
  destruct (resume_paragraphs_present d (record_required_keys d K))
    as (body & _ & _ & E).
  destruct (safe_convert_to_pdf_returns path
              (replace (u ".docx") (u ".pdf") path) (t ++ [Saved path]))
    as (p & rest & C & Hp).
  unfold create_resume, io_bind, lift, call, ret; rewrite E, C.
  eexists; eexists; eexists; split; [reflexivity|]; split; [reflexivity|].
  exact Hp.
Qed.


(** ** More on the collaborators *)

Lemma get_ai_data_content (resume_text content : str) (t : list event) :
  groq_complete (build_prompt resume_text) = Ok content ->
  exists d,
    parse_ai_response content = Ok d /\ keys d = FIELD_NAMES /\
    get_ai_data resume_text t = (Ok (Some d), t).
Proof using unicode_lower_colon.
  intros G; destruct (parsed_record content) as [d [E K]].
  exists d; split; [exact E|]; split; [exact K|].
  unfold get_ai_data, try_except, io_bind, lift, ret; rewrite G, E.
  reflexivity.
Qed.

Lemma get_ai_data_error (resume_text : str) (e : exn) (t : list event) :
  groq_complete (build_prompt resume_text) = Raise e ->
  get_ai_data resume_text t = (Ok None, t ++ [Printed (u "AI Error") e]).
Proof.
  intros G; unfold get_ai_data, try_except, io_bind, lift, ret; rewrite G.
  reflexivity.
Qed.

(** X11.  [get_ai_data] never raises.  It returns [None], after reporting
    on the console, exactly when the call to the service raises; when the
    service answers, whatever the answer, it returns the parsed record with
    the ten fields and reports nothing. *)
Theorem get_ai_data_outcome (resume_text : str) (t : list event) :
  (forall e,
      groq_complete (build_prompt resume_text) = Raise e ->
      get_ai_data resume_text t
      = (Ok None, t ++ [Printed (u "AI Error") e])) /\
  (forall content,
      groq_complete (build_prompt resume_text) = Ok content ->
      exists d,
        parse_ai_response content = Ok d /\ keys d = FIELD_NAMES /\
        get_ai_data resume_text t = (Ok (Some d), t)).
Proof using unicode_lower_colon.
  split.
  - intros e G; exact (get_ai_data_error _ _ _ G).
  - intros content G; exact (get_ai_data_content _ _ _ G).
Qed.


Lemma startswith_app (p q : str) : startswith p (p ++ q) = true.
Proof.
  induction p as [|c p IH]; [reflexivity|]; simpl.
  rewrite N.eqb_refl; exact IH.
Qed.

Lemma endswith_app (p s : str) : endswith p (s ++ p) = true.
Proof. unfold endswith; rewrite rev_app_distr; apply startswith_app. Qed.

(** X13.  The kind of reader follows the extension without regard to letter
    case: a path in ASCII whose last four characters spell [.pdf] in any
    case is read page by page with the PDF reader. *)
Theorem pdf_extension_any_case (stem ext text : str) :
  is_ascii (stem ++ ext) = true ->
  map ascii_lower ext = u ".pdf" ->
  read_file (stem ++ ext) text =
  match pdfplumber_open (stem ++ ext) with
  | PdfOpenRaises => (text, Raise ExternalError)
  | PdfPages pages => read_pages pages text
  end.
Proof.
  intros A E; unfold read_file.
  rewrite (lower_ascii _ A), map_app, E, endswith_app; reflexivity.
Qed.

Lemma lstrip_all_space (s : str) : forallb isspace s = true -> lstrip s = [].
Proof.
  induction s as [|c s IH]; simpl; [reflexivity|].
  rewrite andb_true_iff; intros [-> H]; exact (IH H).
Qed.

Lemma read_pages_textless (pages : list page) (acc : str) :
  forallb textless pages = true ->
  forallb isspace acc = true ->
  exists text,
    read_pages pages acc = (text, Ok tt) /\ forallb isspace text = true.
Proof.
  revert acc; induction pages as [|[x|] pages IH]; intros acc; simpl.
  - intros _ H; exists acc; auto.
  - rewrite andb_true_iff; intros [Hx Hp] Ha; apply IH; [exact Hp|].
    rewrite !forallb_app, Ha, Hx; reflexivity.
  - discriminate.
Qed.

(** X14.  A PDF whose pages hold no text, or white space only, gives the
    empty string, and nothing is reported: an empty result does not tell a
    failed extraction from a document without text. *)
Theorem extract_text_textless_pdf (path : document_path) (pages : list page)
  (t : list event) :
  endswith (u ".pdf") (lower path) = true ->
  pdfplumber_open path = PdfPages pages ->
  forallb textless pages = true ->
  extract_text path t = (Ok [], t).
Proof.
  intros E O H; unfold extract_text, read_file; rewrite E, O.
  destruct (read_pages_textless pages [] H eq_refl) as [text [R S]].
  rewrite R; unfold io_bind, ret; cbn.
  unfold strip; rewrite (lstrip_all_space _ S); reflexivity.
Qed.

Lemma extract_text_returns (path : document_path) (t : list event) :
  exists text t', extract_text path t = (Ok text, t').
Proof.
  unfold extract_text.
  destruct (read_file path []) as [text [[]|e]]; eexists; eexists;
    reflexivity.
Qed.

Lemma safe_name_nonempty (d : dict) :
  keys d = FIELD_NAMES ->
  exists stem, safe_name d = Ok stem /\ stem <> [].
Proof.
  intros K; unfold safe_name.
  rewrite (dict_get_in Full_Name d) by (rewrite K; in_list); cbn [bind].
  destruct (lookup Full_Name d) as [|c r];
    eexists; split; try reflexivity; discriminate.
Qed.

(** The clean-up list and the answer of the route once the service has
    answered: the document is always built, and the answer depends on
    [send_file] alone. *)
Lemma convert_route_after_reply (filename ts : str)
  (t : list route_event) :
  truthy filename = true ->
  save_upload (path_join TEMP_DIR (u "in_" ++ ts ++ u "_" ++ filename))
  = Ok tt ->
  (forall prompt, exists content, groq_complete prompt = Ok content) ->
  exists stem final t',
    stem <> [] /\
    (final
     = path_join TEMP_DIR (u "Resume_" ++ stem ++ u "_" ++ ts ++ u ".docx")
     \/ final
        = replace (u ".docx") (u ".pdf")
            (path_join TEMP_DIR
               (u "Resume_" ++ stem ++ u "_" ++ ts ++ u ".docx"))) /\
    convert_route (Some filename) ts t =
    let registered :=
      t' ++ [CleanupRegistered
               [path_join TEMP_DIR (u "in_" ++ ts ++ u "_" ++ filename);
                path_join TEMP_DIR
                  (u "Resume_" ++ stem ++ u "_" ++ ts ++ u ".docx");
                final];
             FileSent final (basename final)] in
    match send_file final (basename final) with
    | Ok _ => (Ok (SendFile final (basename final)), registered)
    | Raise e =>
        (Ok (Redirect (u "/")),
         registered ++ [Effect (Printed (u "Route Error") e)])
    end.
Proof using unicode_lower_colon.
  intros T S G.
  set (in_path := path_join TEMP_DIR (u "in_" ++ ts ++ u "_" ++ filename)).
  destruct (extract_text_returns in_path []) as (txt & tr & X).
  destruct (G (build_prompt txt)) as [content Gc].
  destruct (get_ai_data_content txt content [] Gc) as (d & _ & K & A).
  destruct (safe_name_nonempty d K) as (stem & N & Ne).
  set (out_path :=
         path_join TEMP_DIR (u "Resume_" ++ stem ++ u "_" ++ ts ++ u ".docx")).
  destruct (create_resume_record d out_path [] K)
    as (doc & final & tc & C & _ & F).
  exists stem, final,
    (t ++ Effect (Saved in_path) :: map Effect tr ++ map Effect tc).
  split; [exact Ne|]; split; [exact F|].
  unfold convert_route; rewrite T; cbn [negb].
  fold in_path.
  unfold route_bind, route_call, route_try_except, run, route_ret.
  fold in_path in S; rewrite S, X, A.
  assert (Td : truthy_data (Some d) = true)
    by (destruct d; [discriminate K | reflexivity]).
  rewrite Td; cbn [negb]; unfold lift; rewrite N; fold out_path.
  rewrite C; cbn [snd].
  destruct (send_file final (basename final)) as [[]|e];
    cbv [print call]; cbn [map app];
    rewrite ?app_nil_r, <- ?app_assoc; cbn [app];
    rewrite <- ?app_assoc; reflexivity.
Qed.



Lemma existsb_cons_str (g f : str) (l : list str) :
  existsb (str_eqb g) (f :: l) = str_eqb g f || existsb (str_eqb g) l.
Proof. reflexivity. Qed.


End Python.

(** ** The properties at concrete inputs *)

Lemma ascii_only_colon (s : str) : In COLON (ascii_only s) -> In COLON s.
Proof. intros H; exact H. Defined.

Lemma parse_ai_response_ten_fields_witness :
  (forall s, In COLON (ascii_only s) -> In COLON s) /\
  exists d,
    parse_ai_response ascii_only sample_reply = Ok d /\ keys d = FIELD_NAMES.
Proof.
  split; [exact ascii_only_colon|].
  destruct (parse_ai_response_ten_fields ascii_only ascii_only_colon
              sample_reply) as (d & E & K & _).
  exists d; split; assumption.
Defined.

Lemma section_field_accumulates_witness :
  (forall s, In COLON (ascii_only s) -> In COLON s) /\
  exists d,
    parse_ai_response ascii_only sample_reply = Ok d /\
    dict_get Profile_Summary d
    = Ok (strip (u "  Seasoned engineer.") ++ [NL]
          ++ strip (u "Ships on time.  ")) /\
    dict_get Technical_Skills d = Ok (strip (u "Python, Rocq")).
Proof.
  split; [exact ascii_only_colon|].
  destruct (section_field_accumulates ascii_only ascii_only_colon) as [_ P].
  apply (P sample_reply (u "Full Name: John Smith") (u "Profile Summary:")
           (u "  Seasoned engineer.") (u "Ships on time.  ")
           (u "Technical Skills:") (u "Python, Rocq"));
    vm_compute; reflexivity.
Defined.

Lemma identity_line_sets_field_witness :
  identity_field ascii_only (strip (u "  Email: a@b.com extra "))
  = Some Email /\
  exists data',
    parse_line ascii_only (empty_record, None) (u "  Email: a@b.com extra ")
    = Ok (data', None) /\
    dict_get Email data' = Ok (u "a@b.com extra").
Proof.
  split; [vm_compute; reflexivity|].
  destruct (identity_line_sets_field ascii_only ascii_only_colon)
    as (_ & P & _).
  destruct (P empty_record None (u "  Email: a@b.com extra ") Email)
    as (d & E & V & _); [vm_compute; reflexivity|].
  exists d; split; [exact E | exact V].
Defined.

Lemma heading_line_switches_section_witness :
  identity_field ascii_only (strip (u "now my TECHNICAL SKILLS: Python"))
  = None /\
  heading_field ascii_only (strip (u "now my TECHNICAL SKILLS: Python"))
  = Some Technical_Skills /\
  parse_line ascii_only (empty_record, Some Profile_Summary)
    (u "now my TECHNICAL SKILLS: Python")
  = Ok (empty_record, Some Technical_Skills).
Proof.
  split; [vm_compute; reflexivity|]; split; [vm_compute; reflexivity|].
  destruct (heading_line_switches_section ascii_only) as (_ & P & _).
  apply P; vm_compute; reflexivity.
Defined.

Lemma last_identity_line_wins_witness :
  exists d,
    parse_ai_response ascii_only repeated_reply = Ok d /\
    dict_get Email d
    = Ok (strip (after_first COLON (strip (u "Email: new@example.com")))).
Proof.
  apply (last_identity_line_wins ascii_only ascii_only_colon repeated_reply
           Email [u "Email: old@example.com"] [u "Phone: 555-0100"]
           (u "Email: new@example.com")).
  - vm_compute; reflexivity.
  - vm_compute; reflexivity.
  - intros r [<- | []]; vm_compute; discriminate.
Defined.




Lemma extract_text_on_failure_witness :
  snd (read_file ascii_only damaged_pdf unreadable_document (u "cv.pdf") [])
  = Raise ExternalError /\
  extract_text ascii_only damaged_pdf unreadable_document (u "cv.pdf") []
  = (Ok (strip (pages_read ascii_only damaged_pdf (u "cv.pdf"))),
     [] ++ [Printed (u "Extraction Error") ExternalError]).
Proof.
  split; [reflexivity|].
  destruct (extract_text_on_failure ascii_only damaged_pdf
              unreadable_document) as [_ P].
  destruct (P (u "cv.pdf") ExternalError [] eq_refl) as [E _]; exact E.
Defined.

Lemma safe_convert_to_pdf_fallback_witness :
  convert failing_office (u "r.docx") (u "r.pdf") = Raise ExternalError /\
  fst (safe_convert_to_pdf failing_office (u "r.docx") (u "r.pdf") [])
  = Ok (u "r.docx") /\
  fst (safe_convert_to_pdf working_office (u "r.docx") (u "r.pdf") [])
  = Ok (u "r.pdf").
Proof.
  split; [reflexivity|]; split.
  - destruct (safe_convert_to_pdf_fallback ascii_only ascii_only_ieq
                failing_office (fun _ => false)) as (_ & P & _).
    exact (P (u "r.docx") (u "r.pdf") [] ExternalError eq_refl).
  - destruct (safe_convert_to_pdf_fallback ascii_only ascii_only_ieq
                working_office (fun _ => false)) as (_ & _ & P & _).
    exact (P (u "r.docx") (u "r.pdf") [] eq_refl eq_refl).
Defined.

(** ** Where the code departs from the specification's wording *)

(** C2 as stated fails: a line of a section that reads as an identity line
    is taken as that identity field and left out of the section. *)
Lemma section_value_counterexample :
  exists d,
    parse_ai_response ascii_only interrupted_reply = Ok d /\
    dict_get Profile_Summary d = Ok (u "Builds compilers") /\
    dict_get Location d = Ok (u "Hyderabad") /\
    section_value_as_stated ascii_only Profile_Summary interrupted_reply
    = u "Location: Hyderabad" ++ [NL] ++ u "Builds compilers" /\
    dict_get Profile_Summary d
    <> Ok (section_value_as_stated ascii_only Profile_Summary
             interrupted_reply).
Proof.
  eexists; split; [vm_compute; reflexivity|].
  split; [vm_compute; reflexivity|].
  split; [vm_compute; reflexivity|].
  split; [vm_compute; reflexivity|].
  vm_compute; discriminate.
Qed.


(** C4 as stated fails: a PDF whose second page cannot be read yields the
    text of its first page, not the empty string. *)
Lemma extract_text_counterexample :
  snd (read_file ascii_only damaged_pdf unreadable_document (u "cv.pdf") [])
  = Raise ExternalError /\
  fst (extract_text ascii_only damaged_pdf unreadable_document
         (u "cv.pdf") [])
  = Ok (u "Hello") /\
  fst (extract_text ascii_only damaged_pdf unreadable_document
         (u "cv.pdf") [])
  <> Ok [].
Proof.
  split; [reflexivity|]; split; [vm_compute; reflexivity|].
  vm_compute; discriminate.
Qed.

(** ** Further properties at concrete inputs *)

Lemma parse_depends_on_trimmed_lines_witness :
  parse_ai_response ascii_only padded_reply
  = parse_ai_response ascii_only (u "Email: a@b.com").
Proof.
  apply (parse_depends_on_trimmed_lines ascii_only padded_reply
           (u "Email: a@b.com")).
  vm_compute; reflexivity.
Defined.

Lemma parsed_values_trimmed_witness :
  match parse_ai_response ascii_only padded_reply with
  | Ok d => forall k v, In (k, v) d -> strip v = v
  | Raise _ => False
  end.
Proof.
  destruct (parse_ai_response ascii_only padded_reply) as [d|e] eqn:E.
  - exact (parsed_values_trimmed ascii_only padded_reply d E).
  - vm_compute in E; discriminate E.
Defined.

Lemma parsed_section_lines_witness :
  In Profile_Summary SECTION_FIELDS /\
  exists d v,
    parse_ai_response ascii_only sample_reply = Ok d /\
    dict_get Profile_Summary d = Ok v /\
    (v <> [] ->
     split NL v
     = section_lines ascii_only Profile_Summary None (split NL sample_reply)).
Proof.
  split; [in_list|].
  destruct (parsed_section_lines ascii_only ascii_only_colon sample_reply
              Profile_Summary) as (d & v & E & V & _ & S); [in_list|].
  exists d, v; split; [exact E|]; split; [exact V | exact S].
Defined.

Lemma classify_ignores_case_witness :
  classify ascii_only (u "EMAIL: A@B.COM")
  = classify ascii_only (u "email: a@b.com").
Proof.
  apply classify_ignores_case; reflexivity.
Defined.

Lemma unlabelled_preamble_dropped_witness :
  parse_ai_response ascii_only prefaced_reply
  = parse_ai_response ascii_only (u "Email: a@b.com").
Proof.
  apply (unlabelled_preamble_dropped ascii_only prefaced_reply
           (u "Email: a@b.com") [u "Here is the candidate:"; []]).
  - vm_compute; reflexivity.
  - intros raw [<- | [<- | []]]; [left | right]; vm_compute; reflexivity.
Defined.


Lemma document_headings_witness :
  exists doc,
    resume_paragraphs ascii_only ascii_only_ieq (fun _ => false)
      record_with_summary = Ok doc /\
    map text (filter is_heading doc)
    = [u "PROFILE SUMMARY"; u "TECHNICAL SKILLS"].
Proof.
  destruct (document_headings ascii_only ascii_only_ieq (fun _ => false)
              record_with_summary
              (record_required_keys record_with_summary eq_refl))
    as (doc & E & F).
  exists doc; split; [exact E | rewrite F; reflexivity].
Defined.

Lemma parsed_section_paragraphs_witness :
  exists d ps,
    parse_ai_response ascii_only sample_reply = Ok d /\
    section_paragraphs d (u "PROFILE SUMMARY", Profile_Summary) = Ok ps /\
    map (fun p => (text p, pstyle p)) ps
    = [(u "PROFILE SUMMARY", Normal); (u "Seasoned engineer.", Normal);
       (u "Ships on time.", Normal)].
Proof.
  destruct (parsed_section_paragraphs ascii_only ascii_only_colon
              sample_reply (u "PROFILE SUMMARY") Profile_Summary)
    as (d & ps & E & S & M); [in_list|].
  exists d, ps; split; [exact E|]; split; [exact S|].
  rewrite M; vm_compute; reflexivity.
Defined.

Lemma pdf_path_of_docx_path_witness :
  replace (u ".docx") (u ".pdf") (u "tmp/Resume_Ann_1" ++ u ".docx")
  = u "tmp/Resume_Ann_1" ++ u ".pdf".
Proof.
  destruct (pdf_path_of_docx_path (u "tmp/Resume_Ann_1") eq_refl) as [E _].
  exact E.
Defined.


Lemma get_ai_data_outcome_witness :
  sample_groq (build_prompt (u "resume")) = Ok sample_reply /\
  exists d,
    get_ai_data ascii_only sample_groq (u "resume") [] = (Ok (Some d), []) /\
    keys d = FIELD_NAMES.
Proof.
  split; [reflexivity|].
  destruct (get_ai_data_outcome ascii_only sample_groq ascii_only_colon
              (u "resume") []) as [_ P].
  destruct (P sample_reply eq_refl) as (d & _ & K & E).
  exists d; split; [exact E | exact K].
Defined.


Lemma pdf_extension_any_case_witness :
  read_file ascii_only damaged_pdf unreadable_document (u "cv" ++ u ".PDF")
    []
  = read_pages [PageText (Some (u "Hello")); PageRaises] [].
Proof.
  exact (pdf_extension_any_case ascii_only damaged_pdf unreadable_document
           (u "cv") (u ".PDF") [] eq_refl eq_refl).
Defined.

Lemma extract_text_textless_pdf_witness :
  extract_text ascii_only scanned_pdf unreadable_document (u "scan.pdf") []
  = (Ok [], []).
Proof.
  apply (extract_text_textless_pdf ascii_only scanned_pdf
           unreadable_document (u "scan.pdf")
           [PageText None; PageText (Some (u "  ")); PageText (Some [])]);
    reflexivity.
Defined.


